(** * MCP wire schemas of the AI SDK: a shallow embedding and its properties

    The source under study is the schema module that starts with
    [import { z } from 'zod/v4'] and declares [LATEST_PROTOCOL_VERSION],
    [SUPPORTED_PROTOCOL_VERSIONS], [BaseParamsSchema], [RequestSchema],
    [ServerCapabilitiesSchema], [InitializeResultSchema],
    [ListToolsResultSchema], the content-part schemas and
    [CallToolResultSchema].

    The module is purely declarative: every constant is a zod schema value.
    To give those declarations a meaning we embed
    - JSON values as an inductive type ([json]),
    - the zod combinators the module uses as a syntax of schemas ([schema]),
    - zod's synchronous [parse] as a total function ([parse]),
    and then translate each exported schema constant by constant.

    [parse] follows the classes behind the [zod/v4] entry point of zod 3.25
    ([v4/core/schemas.ts], [v4/core/util.ts]):
    [$ZodString], [$ZodBoolean], [$ZodLiteral], [$ZodUnknown],
    [$ZodOptional], [$ZodDefault], [$ZodArray], [$ZodObject] and
    [$ZodUnion].  Two points of zod 4 matter below and differ from zod 3:
    an optional wrapper hands [undefined] to an inner schema that is itself
    optional on input (so a default inside [.optional()] is applied), and
    [z.unknown()] does not make a key required at run time.

    The protocol client that uses these schemas (handshake, catalog
    pagination, tool proxies) is a separate module; its three operations
    are modelled from the written specification, in [Negotiator],
    [Paginator] and [Proxy]. *)

From Stdlib Require Import List String Ascii Bool ZArith Arith Lia.
Import ListNotations.
Local Open Scope string_scope.
Set Warnings "-register-all".
Local Open Scope list_scope.

(* ================================================================== *)
(** ** JSON values *)
(* ================================================================== *)

(** A decoded JSON document.  Objects are association lists in insertion
    order, as JavaScript objects are; a key is read with [lookup] (first
    binding wins).  Numbers are never inspected by any schema of the module,
    integer literals are all the development needs. *)
Inductive json : Type :=
| JNull
| JBool (b : bool)
| JNum (n : Z)
| JStr (s : string)
| JArr (items : list json)
| JObj (fields : list (string * json)).

(** A JavaScript value as zod sees it: [None] stands for [undefined]
    (what [input[key]] yields for a missing key). *)
Definition jsval : Type := option json.

Fixpoint lookup {A : Type} (k : string) (fs : list (string * A)) : option A :=
  match fs with
  | [] => None
  | (k', v) :: rest => if String.eqb k k' then Some v else lookup k rest
  end.

Definition keys {A : Type} (fs : list (string * A)) : list string :=
  map fst fs.

Definition has_key {A : Type} (k : string) (fs : list (string * A)) : bool :=
  existsb (String.eqb k) (keys fs).

(* ================================================================== *)
(** ** Issues and results *)
(* ================================================================== *)

Inductive issue_code : Type :=
| invalid_type (expected : string)
| invalid_value
| invalid_format (format : string)
| too_small
| invalid_union.

Inductive path_seg : Type :=
| PKey (k : string)
| PIdx (i : nat).

Record issue : Type := mkIssue { code : issue_code; path : list path_seg }.

(** [util.prefixIssues]: push one segment in front of every issue's path. *)
Definition prefixIssues (seg : path_seg) (iss : list issue) : list issue :=
  map (fun i => mkIssue (code i) (seg :: path i)) iss.

Inductive result (A : Type) : Type :=
| Ok (value : A)
| Err (issues : list issue).
Arguments Ok {A} value.
Arguments Err {A} issues.

Definition is_ok {A : Type} (r : result A) : bool :=
  match r with Ok _ => true | Err _ => false end.

(* ================================================================== *)
(** ** Schemas: the zod combinators used by the module *)
(* ================================================================== *)

(** Checks attached to [z.string()].  The module only uses [.base64()];
    [.min(n)] is there for input schemas that tools declare. *)
Inductive string_check : Type :=
| Base64               (* .base64() *)
| MinLength (n : nat). (* .min(n)   *)

(** What an object schema does with keys outside its shape: [z.object]
    strips them, [.passthrough()] installs the catch-all [z.unknown()]. *)
Inductive unknown_keys : Type :=
| Strip
| Passthrough.

Inductive schema : Type :=
| ZString (checks : list string_check)         (* z.string()...        *)
| ZBoolean                                     (* z.boolean()          *)
| ZLiteral (lit : string)                      (* z.literal('...')     *)
| ZUnknown                                     (* z.unknown()          *)
| ZOptional (inner : schema)                   (* z.optional(s), s.optional() *)
| ZDefault (inner : schema) (dflt : json)      (* s.default(d)         *)
| ZArray (element : schema)                    (* z.array(s)           *)
| ZObject (shape : list (string * schema)) (catchall : unknown_keys)
| ZUnion (options : list schema).              (* z.union([..]), a.or(b) *)

(** Builders with the names of the zod API. *)
Definition z_string : schema := ZString [].
Definition z_object (shape : list (string * schema)) : schema :=
  ZObject shape Strip.
Definition z_or (a b : schema) : schema := ZUnion [a; b].

(** [.passthrough()]; on anything but an object schema the method does not
    exist (a type error in the source language), the schema is returned
    as it is. *)
Definition passthrough (s : schema) : schema :=
  match s with
  | ZObject shape _ => ZObject shape Passthrough
  | _ => s
  end.

(** [{ ...shape, ...ext }]: a key of [ext] already in [shape] is overwritten
    in place, a new key is appended. *)
Fixpoint override {A : Type} (k : string) (v : A) (fs : list (string * A))
  : list (string * A) :=
  match fs with
  | [] => [(k, v)]
  | (k', v') :: rest =>
      if String.eqb k k' then (k', v) :: rest else (k', v') :: override k v rest
  end.

Definition spread {A : Type} (shape ext : list (string * A))
  : list (string * A) :=
  fold_left (fun acc kv => override (fst kv) (snd kv) acc) ext shape.

(** [.extend(ext)]: the shape is spread, the catch-all is kept. *)
Definition extend (s : schema) (ext : list (string * schema)) : schema :=
  match s with
  | ZObject shape c => ZObject (spread shape ext) c
  | _ => s
  end.

(* ================================================================== *)
(** ** String formats *)
(* ================================================================== *)

Definition in_range (lo hi c : ascii) : bool :=
  Nat.leb (nat_of_ascii lo) (nat_of_ascii c)
  && Nat.leb (nat_of_ascii c) (nat_of_ascii hi).

(** The class [[0-9a-zA-Z+/]]. *)
Definition base64_char (c : ascii) : bool :=
  in_range "0"%char "9"%char c || in_range "a"%char "z"%char c
  || in_range "A"%char "Z"%char c
  || Ascii.eqb c "+"%char || Ascii.eqb c "/"%char.

Definition is_pad (c : ascii) : bool := Ascii.eqb c "="%char.

(** ASCII whitespace: TAB, LF, FF, CR and SPACE. *)
Definition ascii_whitespace (c : ascii) : bool :=
  let n := nat_of_ascii c in
  Nat.eqb n 9 || Nat.eqb n 10 || Nat.eqb n 12 || Nat.eqb n 13 || Nat.eqb n 32.

(** "If data ends with one or two [=], remove them." *)
Definition strip_padding (cs : list ascii) : list ascii :=
  match rev cs with
  | p :: q :: r =>
      if is_pad p then (if is_pad q then rev r else rev (q :: r)) else cs
  | [p] => if is_pad p then [] else cs
  | [] => cs
  end.

(** [atob(data)] does not throw: the forgiving-base64 decode of the
    platform.  ASCII whitespace is removed; if what is left has a length
    divisible by four, one or two trailing [=] are removed; the rest must
    not have a length of one modulo four and must consist of characters of
    the base64 alphabet. *)
Definition atob_succeeds (data : string) : bool :=
  let d := filter (fun c => negb (ascii_whitespace c))
                  (list_ascii_of_string data) in
  let d' := if Nat.eqb (Nat.modulo (List.length d) 4) 0
            then strip_padding d else d in
  negb (Nat.eqb (Nat.modulo (List.length d') 4) 1) && forallb base64_char d'.

(** zod's [isValidBase64], the check behind [.base64()]:
    [if (data === "") return true; if (data.length % 4 !== 0) return false;
    try { atob(data); return true } catch { return false }].
    A string is taken as its sequence of bytes; a byte outside ASCII makes
    [atob] throw, whatever the length. *)
Definition is_base64 (s : string) : bool :=
  match s with
  | EmptyString => true
  | _ => Nat.eqb (Nat.modulo (String.length s) 4) 0 && atob_succeeds s
  end.

Definition check_issue (c : string_check) (s : string) : list issue :=
  match c with
  | Base64 =>
      if is_base64 s then [] else [mkIssue (invalid_format "base64") []]
  | MinLength n =>
      if Nat.leb n (String.length s) then [] else [mkIssue too_small []]
  end.

Definition run_checks (cs : list string_check) (s : string) : list issue :=
  flat_map (fun c => check_issue c s) cs.

(* ================================================================== *)
(** ** parse *)
(* ================================================================== *)

(** [_zod.optin === "optional"]: set by [$ZodOptional] and [$ZodDefault],
    inherited by a union from its options. *)
Fixpoint optin (s : schema) : bool :=
  match s with
  | ZOptional _ => true
  | ZDefault _ _ => true
  | ZUnion options => existsb optin options
  | _ => false
  end.

(** Gather the per-key results of an object, in shape order.  Issues of all
    keys are concatenated, each prefixed with its key; a key whose result is
    [undefined] is not written (it would vanish on serialisation anyway). *)
Fixpoint collect_fields (rs : list (string * result jsval))
  : result (list (string * json)) :=
  match rs with
  | [] => Ok []
  | (k, r) :: rest =>
      match r, collect_fields rest with
      | Ok (Some v), Ok vs => Ok ((k, v) :: vs)
      | Ok None, Ok vs => Ok vs
      | Ok _, Err js => Err js
      | Err iss, Ok _ => Err (prefixIssues (PKey k) iss)
      | Err iss, Err js => Err (prefixIssues (PKey k) iss ++ js)
      end
  end.

(** Same for the elements of an array; an [undefined] element serialises
    as [null]. *)
Fixpoint collect_items (i : nat) (rs : list (result jsval))
  : result (list json) :=
  match rs with
  | [] => Ok []
  | r :: rest =>
      match r, collect_items (S i) rest with
      | Ok (Some v), Ok vs => Ok (v :: vs)
      | Ok None, Ok vs => Ok (JNull :: vs)
      | Ok _, Err js => Err js
      | Err iss, Ok _ => Err (prefixIssues (PIdx i) iss)
      | Err iss, Err js => Err (prefixIssues (PIdx i) iss ++ js)
      end
  end.

(** The first option without issues wins; [invalid_union] if none. *)
Fixpoint first_ok (rs : list (result jsval)) : result jsval :=
  match rs with
  | [] => Err [mkIssue invalid_union []]
  | Ok v :: _ => Ok v
  | Err _ :: rest => first_ok rest
  end.

(** The keys of the input that the catch-all leaves in the result, in
    input order: the loop [for (const key of Object.keys(input)) { if
    (keySet.has(key)) continue; ...; final.value[key] = r.value }] of
    [$ZodObject].  The result is a fresh [{}]: for the key [__proto__] the
    assignment sets its prototype and creates no property, so an own key
    [__proto__] of the input is not among the keys of the result. *)
Definition unrecognized {A : Type} (shape : list (string * A))
  (fs : list (string * json)) : list (string * json) :=
  filter (fun kv => negb (has_key (fst kv) shape)
                    && negb (String.eqb (fst kv) "__proto__")) fs.

Definition catch_all {A : Type} (c : unknown_keys) (shape : list (string * A))
  (fs : list (string * json)) : list (string * json) :=
  match c with
  | Strip => []
  | Passthrough => unrecognized shape fs
  end.

(** [schema._zod.run({value: x, issues: []})], with the payload's issues
    and value as a [result].  The value returned stands for what
    serialising the JavaScript result gives: its own properties.  Input
    objects are those [JSON.parse] yields, and [lookup k fs] stands for
    [input[k]]; that is exact for the keys the module's shapes name, none
    of which is a property of [Object.prototype].
    - [$ZodOptional]: if the inner schema is optional on input it is run,
      and its issues are dropped when the input is [undefined]; otherwise
      [undefined] is returned as it is and anything else goes to the inner
      schema.
    - [$ZodDefault]: [undefined] becomes the default, before and after the
      inner schema.
    - [$ZodObject]: the input must be a non-null, non-array object; every
      key of the shape is run on [input[key]]; with a catch-all the keys
      outside the shape are copied.
    - [$ZodUnion]: the options are run in order on the same input, the
      first result without issues is returned. *)
Fixpoint parse (s : schema) (x : jsval) {struct s} : result jsval :=
  match s with
  | ZString checks =>
      match x with
      | Some (JStr str) =>
          match run_checks checks str with
          | [] => Ok x
          | iss => Err iss
          end
      | _ => Err [mkIssue (invalid_type "string") []]
      end
  | ZBoolean =>
      match x with
      | Some (JBool _) => Ok x
      | _ => Err [mkIssue (invalid_type "boolean") []]
      end
  | ZLiteral lit =>
      match x with
      | Some (JStr str) =>
          if String.eqb str lit then Ok x else Err [mkIssue invalid_value []]
      | _ => Err [mkIssue invalid_value []]
      end
  | ZUnknown => Ok x
  | ZOptional inner =>
      if optin inner then
        match parse inner x, x with
        | Err _, None => Ok None
        | r, _ => r
        end
      else
        match x with
        | None => Ok None
        | Some _ => parse inner x
        end
  | ZDefault inner dflt =>
      match x with
      | None => Ok (Some dflt)
      | Some _ =>
          match parse inner x with
          | Ok None => Ok (Some dflt)
          | r => r
          end
      end
  | ZArray element =>
      match x with
      | Some (JArr items) =>
          match collect_items 0 (map (fun v => parse element (Some v)) items) with
          | Ok vs => Ok (Some (JArr vs))
          | Err iss => Err iss
          end
      | _ => Err [mkIssue (invalid_type "array") []]
      end
  | ZObject shape catchall =>
      match x with
      | Some (JObj fs) =>
          match collect_fields
                  (map (fun kv => let '(k, el) := kv in (k, parse el (lookup k fs)))
                       shape) with
          | Ok known => Ok (Some (JObj (known ++ catch_all catchall shape fs)))
          | Err iss => Err iss
          end
      | _ => Err [mkIssue (invalid_type "object") []]
      end
  | ZUnion options =>
      first_ok (map (fun o => parse o x) options)
  end.

(** [schema.safeParse(data)] on a decoded JSON document. *)
Definition safeParse (s : schema) (v : json) : result jsval := parse s (Some v).

Definition accepts (s : schema) (v : json) : bool := is_ok (safeParse s v).

(* ================================================================== *)
(** ** The module's constants *)
(* ================================================================== *)

Definition LATEST_PROTOCOL_VERSION : string := "2025-06-18".

Definition SUPPORTED_PROTOCOL_VERSIONS : list string :=
  [LATEST_PROTOCOL_VERSION; "2025-03-26"; "2024-11-05"].

Definition ClientOrServerImplementationSchema : schema :=
  passthrough (z_object [("name", z_string); ("version", z_string)]).

Definition BaseParamsSchema : schema :=
  passthrough (z_object [("_meta", ZOptional (passthrough (z_object [])))]).

Definition ResultSchema : schema := BaseParamsSchema.

Definition RequestSchema : schema :=
  z_object [("method", z_string); ("params", ZOptional BaseParamsSchema)].

Definition ServerCapabilitiesSchema : schema :=
  passthrough (z_object
    [("experimental", ZOptional (passthrough (z_object [])));
     ("logging", ZOptional (passthrough (z_object [])));
     ("prompts", ZOptional (passthrough (z_object
        [("listChanged", ZOptional ZBoolean)])));
     ("resources", ZOptional (passthrough (z_object
        [("subscribe", ZOptional ZBoolean);
         ("listChanged", ZOptional ZBoolean)])));
     ("tools", ZOptional (passthrough (z_object
        [("listChanged", ZOptional ZBoolean)])))]).

Definition InitializeResultSchema : schema :=
  extend ResultSchema
    [("protocolVersion", z_string);
     ("capabilities", ServerCapabilitiesSchema);
     ("serverInfo", ClientOrServerImplementationSchema);
     ("instructions", ZOptional z_string)].

Definition PaginatedResultSchema : schema :=
  extend ResultSchema [("nextCursor", ZOptional z_string)].

Definition ToolSchema : schema :=
  passthrough (z_object
    [("name", z_string);
     ("description", ZOptional z_string);
     ("inputSchema", passthrough (z_object
        [("type", ZLiteral "object");
         ("properties", ZOptional (passthrough (z_object [])))]))]).

Definition ListToolsResultSchema : schema :=
  extend PaginatedResultSchema [("tools", ZArray ToolSchema)].

Definition TextContentSchema : schema :=
  passthrough (z_object [("type", ZLiteral "text"); ("text", z_string)]).

Definition ImageContentSchema : schema :=
  passthrough (z_object
    [("type", ZLiteral "image");
     ("data", ZString [Base64]);
     ("mimeType", z_string)]).

Definition ResourceContentsSchema : schema :=
  passthrough (z_object [("uri", z_string); ("mimeType", ZOptional z_string)]).

Definition TextResourceContentsSchema : schema :=
  extend ResourceContentsSchema [("text", z_string)].

Definition BlobResourceContentsSchema : schema :=
  extend ResourceContentsSchema [("blob", ZString [Base64])].

Definition EmbeddedResourceSchema : schema :=
  passthrough (z_object
    [("type", ZLiteral "resource");
     ("resource",
      ZUnion [TextResourceContentsSchema; BlobResourceContentsSchema])]).

(** The union of content parts and the two operands of [.or] in
    [CallToolResultSchema]; the source writes them inline, they are named
    here to be talked about. *)
Definition ContentPartSchema : schema :=
  ZUnion [TextContentSchema; ImageContentSchema; EmbeddedResourceSchema].

Definition ContentDialectSchema : schema :=
  extend ResultSchema
    [("content", ZArray ContentPartSchema);
     ("isError", ZOptional (ZDefault ZBoolean (JBool false)))].

Definition LegacyDialectSchema : schema :=
  extend ResultSchema [("toolResult", ZUnknown)].

Definition CallToolResultSchema : schema :=
  z_or ContentDialectSchema LegacyDialectSchema.

(* ================================================================== *)
(** ** Preservation of fields, as a relation *)
(* ================================================================== *)

(** [all_passthrough s]: every object node of [s] carries the catch-all. *)
Fixpoint all_passthrough (s : schema) : bool :=
  match s with
  | ZOptional inner => all_passthrough inner
  | ZDefault inner _ => all_passthrough inner
  | ZArray element => all_passthrough element
  | ZObject shape Passthrough =>
      forallb (fun kv => let '(_, el) := kv in all_passthrough el) shape
  | ZObject _ Strip => false
  | ZUnion options => forallb all_passthrough options
  | _ => true
  end.

(** [keeps s v r]: the output [r] of validating [v] against [s] has lost
    nothing but, possibly, keys named [__proto__].  At an object node a key
    other than [__proto__] that the shape does not know is bound in the
    output exactly as in the input (or unbound in both), and a known key
    bound in the input is bound in the output to a value that in turn
    keeps everything; arrays are kept element by element; a value below a
    leaf or below [z.unknown()] is unchanged. *)
Inductive keeps : schema -> json -> json -> Prop :=
| keeps_string cs v : keeps (ZString cs) v v
| keeps_boolean v : keeps ZBoolean v v
| keeps_literal lit v : keeps (ZLiteral lit) v v
| keeps_unknown v : keeps ZUnknown v v
| keeps_optional inner v r :
    keeps inner v r -> keeps (ZOptional inner) v r
| keeps_default inner d v r :
    keeps inner v r -> keeps (ZDefault inner d) v r
| keeps_array element vs rs :
    Forall2 (keeps element) vs rs ->
    keeps (ZArray element) (JArr vs) (JArr rs)
| keeps_object shape fs gs :
    (forall k, lookup k shape = None -> k <> "__proto__" ->
       lookup k gs = lookup k fs) ->
    (forall k el x, lookup k shape = Some el -> lookup k fs = Some x ->
       exists y, lookup k gs = Some y /\ keeps el x y) ->
    keeps (ZObject shape Passthrough) (JObj fs) (JObj gs)
| keeps_union options o v r :
    In o options -> keeps o v r -> keeps (ZUnion options) v r.

(** The schemas of the module whose object nodes are all [.passthrough()]:
    every exported schema but [RequestSchema]. *)
Definition passthrough_schemas : list schema :=
  [ClientOrServerImplementationSchema; BaseParamsSchema; ResultSchema;
   ServerCapabilitiesSchema; InitializeResultSchema; PaginatedResultSchema;
   ToolSchema; ListToolsResultSchema; TextContentSchema; ImageContentSchema;
   ResourceContentsSchema; TextResourceContentsSchema;
   BlobResourceContentsSchema; EmbeddedResourceSchema;
   ContentDialectSchema; LegacyDialectSchema; CallToolResultSchema].

(* ================================================================== *)
(** ** Shapes of the payloads, read off the wire *)
(* ================================================================== *)

(** [_meta] is absent or an object. *)
Definition meta_ok (fs : list (string * json)) : bool :=
  match lookup "_meta" fs with
  | None => true
  | Some (JObj _) => true
  | Some _ => false
  end.

Definition is_string (x : option json) : bool :=
  match x with Some (JStr _) => true | _ => false end.

Definition is_base64_string (x : option json) : bool :=
  match x with Some (JStr s) => is_base64 s | _ => false end.

Definition absent_or_string (x : option json) : bool :=
  match x with None => true | Some (JStr _) => true | _ => false end.

Definition present {A : Type} (x : option A) : bool :=
  match x with Some _ => true | None => false end.

(** What the union of the two resource-contents schemas asks of the
    [resource] object [rs]. *)
Definition resource_ok (rs : list (string * json)) : bool :=
  is_string (lookup "uri" rs)
  && absent_or_string (lookup "mimeType" rs)
  && (is_string (lookup "text" rs) || is_base64_string (lookup "blob" rs)).

(** Exactly one of [text] and [blob] is a key of [rs]. *)
Definition exactly_one_of_text_blob (rs : list (string * json)) : bool :=
  xorb (present (lookup "text" rs)) (present (lookup "blob" rs)).

(* ================================================================== *)
(** ** The client around the schemas *)
(* ================================================================== *)

(** Modelled from the spec: the error taxonomy of the protocol layer (the
    client module that raises these errors is a separate module). *)
Inductive client_error : Type :=
| ProtocolVersionMismatch (supported : list string) (offered : string)
| SchemaValidationError (issues : list issue)
| PaginationLoopError (cursor : string)
| InputValidationError (tool : string) (issues : list issue)
| TransportFailure
| SessionUnusable.

Inductive outcome (A : Type) : Type :=
| Done (a : A)
| Failed (e : client_error).
Arguments Done {A} a.
Arguments Failed {A} e.

Module Negotiator.

(** Modelled from the spec: the version negotiator (the client module
    that runs the initialize handshake is a separate module).  The
    offered version is adopted when it is in the supported list; otherwise
    the one-shot decision fails with both values in the error. *)
Definition negotiate (supported : list string) (offered : string)
  : outcome string :=
  if existsb (String.eqb offered) supported
  then Done offered
  else Failed (ProtocolVersionMismatch supported offered).

(** Modelled from the spec: a session is either established at a version
    or unusable. *)
Inductive session : Type :=
| Established (version : string)
| Unusable.

(** Modelled from the spec: the handshake of a client whose supported list
    is [SUPPORTED_PROTOCOL_VERSIONS], given the [protocolVersion] of the
    server's initialize result. *)
Definition start_session (offered : string)
  : session * outcome string :=
  match negotiate SUPPORTED_PROTOCOL_VERSIONS offered with
  | Done v => (Established v, Done v)
  | Failed e => (Unusable, Failed e)
  end.

(** Modelled from the spec: every later operation goes through the
    session and is refused once the session is unusable. *)
Definition with_session {A : Type} (s : session) (op : string -> outcome A)
  : outcome A :=
  match s with
  | Established v => op v
  | Unusable => Failed SessionUnusable
  end.

End Negotiator.

Module Paginator.

(** One decoded page of [tools/list]. *)
Record page : Type := mkPage { tools : list json; nextCursor : option string }.

(** A raw response is validated against [ListToolsResultSchema] and its
    [tools] and [nextCursor] are read from the validated value. *)
Definition decode_page (raw : json) : outcome page :=
  match safeParse ListToolsResultSchema raw with
  | Ok (Some (JObj fs)) =>
      match lookup "tools" fs with
      | Some (JArr ts) =>
          Done (mkPage ts
                  match lookup "nextCursor" fs with
                  | Some (JStr c) => Some c
                  | _ => None
                  end)
      | _ => Failed (SchemaValidationError [])
      end
  | Ok _ => Failed (SchemaValidationError [])
  | Err iss => Failed (SchemaValidationError iss)
  end.

Definition same_cursor (a : option string) (b : string) : bool :=
  match a with
  | Some a' => String.eqb a' b
  | None => false
  end.

(** Modelled from the spec: the aggregate catalog fetch (the loop is in
    the client module).  [responses] is what the
    server answers, request after request; [sent] is the cursor of the
    request being answered ([None] for the first one).  The accumulated
    list is returned only when a page comes without [nextCursor]; a page
    that repeats the cursor just sent, an invalid page and a missing
    answer all fail without a list. *)
Fixpoint fetch_pages (sent : option string) (acc : list json)
  (responses : list json) : outcome (list json) :=
  match responses with
  | [] => Failed TransportFailure
  | raw :: rest =>
      match decode_page raw with
      | Failed e => Failed e
      | Done p =>
          match nextCursor p with
          | None => Done (acc ++ tools p)
          | Some c =>
              if same_cursor sent c
              then Failed (PaginationLoopError c)
              else fetch_pages (Some c) (acc ++ tools p) rest
          end
      end
  end.

(** Modelled from the spec: the aggregate starts with no cursor and an
    empty list. *)
Definition listTools (responses : list json) : outcome (list json) :=
  fetch_pages None [] responses.

(** Modelled from the spec: the cursors of the requests the aggregate
    sends, in order, before it stops. *)
Fixpoint requested_cursors (sent : option string) (responses : list json)
  : list (option string) :=
  match responses with
  | [] => [sent]
  | raw :: rest =>
      sent ::
      match decode_page raw with
      | Failed _ => []
      | Done p =>
          match nextCursor p with
          | None => []
          | Some c =>
              if same_cursor sent c then [] else requested_cursors (Some c) rest
          end
      end
  end.

(** No cursor is immediately followed by itself, starting after [sent]. *)
Fixpoint no_repeat (sent : option string) (cs : list string) : bool :=
  match cs with
  | [] => true
  | c :: rest => negb (same_cursor sent c) && no_repeat (Some c) rest
  end.

(** The raw responses [raws] decode to pages that carry the cursors [cs],
    one each. *)
Inductive cursor_pages : list json -> list page -> list string -> Prop :=
| cursor_pages_nil : cursor_pages [] [] []
| cursor_pages_cons raw ts c raws ps cs :
    decode_page raw = Done (mkPage ts (Some c)) ->
    cursor_pages raws ps cs ->
    cursor_pages (raw :: raws) (mkPage ts (Some c) :: ps) (c :: cs).

End Paginator.

Module Proxy.

(** Modelled from the spec: a generated tool proxy, bound to a tool name
    and the tool's declared input schema. *)
Record ToolProxy : Type :=
  mkProxy { toolName : string; inputSchema : schema }.

(** A request on the wire: [{method, params: {name, arguments}}]. *)
Record call_request : Type :=
  mkCall { method : string; name : string; arguments : json }.

(** Modelled from the spec: the transport, reduced to what the proxy
    needs: how the peer answers a call, and the requests sent so far. *)
Record transport : Type :=
  mkTransport { respond : call_request -> json; sent : list call_request }.

Definition send (t : transport) (req : call_request) : json * transport :=
  (respond t req, mkTransport (respond t) (sent t ++ [req])).

(** Modelled from the spec: [execute] of a proxy (the generator is in the
    client module).  The input is validated first; only a valid input
    reaches the transport, once; the answer is decoded through
    [CallToolResultSchema]. *)
Definition execute (p : ToolProxy) (input : json) (t : transport)
  : outcome json * transport :=
  match safeParse (inputSchema p) input with
  | Err iss => (Failed (InputValidationError (toolName p) iss), t)
  | Ok _ =>
      let '(answer, t') := send t (mkCall "tools/call" (toolName p) input) in
      match safeParse CallToolResultSchema answer with
      | Ok (Some r) => (Done r, t')
      | Ok None => (Failed (SchemaValidationError []), t')
      | Err iss => (Failed (SchemaValidationError iss), t')
      end
  end.

(** The input schema of the spec's example:
    [{query: string, minLength 1}]. *)
Definition query_schema : schema :=
  z_object [("query", ZString [MinLength 1])].

End Proxy.

(* ================================================================== *)
(** ** Content up to key order, and classes of schemas *)
(* ================================================================== *)

(** [same_content v w]: [v] and [w] are the same JSON document up to the
    order in which objects list their keys: scalars are equal, arrays agree
    element by element, objects bind the same keys to values with the same
    content. *)
Inductive same_content : json -> json -> Prop :=
| same_null : same_content JNull JNull
| same_bool b : same_content (JBool b) (JBool b)
| same_num n : same_content (JNum n) (JNum n)
| same_str s : same_content (JStr s) (JStr s)
| same_arr xs ys :
    Forall2 same_content xs ys -> same_content (JArr xs) (JArr ys)
| same_obj fs gs :
    (forall k x, lookup k fs = Some x ->
       exists y, lookup k gs = Some y /\ same_content x y) ->
    (forall k, lookup k fs = None -> lookup k gs = None) ->
    same_content (JObj fs) (JObj gs).

(** The same for a value that may be [undefined]. *)
Definition same_jsval (x y : jsval) : Prop :=
  match x, y with
  | None, None => True
  | Some v, Some w => same_content v w
  | _, _ => False
  end.

(** [sans_proto v w]: [w] is [v] up to key order, except that objects of
    [w] may lack keys named [__proto__] that [v] has; [w] has no key that
    [v] has not. *)
Inductive sans_proto : json -> json -> Prop :=
| sans_null : sans_proto JNull JNull
| sans_bool b : sans_proto (JBool b) (JBool b)
| sans_num n : sans_proto (JNum n) (JNum n)
| sans_str s : sans_proto (JStr s) (JStr s)
| sans_arr xs ys :
    Forall2 sans_proto xs ys -> sans_proto (JArr xs) (JArr ys)
| sans_obj fs gs :
    (forall k x, k <> "__proto__" -> lookup k fs = Some x ->
       exists y, lookup k gs = Some y /\ sans_proto x y) ->
    (forall k, lookup k fs = None -> lookup k gs = None) ->
    sans_proto (JObj fs) (JObj gs).

Definition sans_jsval (x y : jsval) : Prop :=
  match x, y with
  | None, None => True
  | Some v, Some w => sans_proto v w
  | _, _ => False
  end.

(** [proto_free v]: no object of [v], at any depth, has a key named
    [__proto__]. *)
Fixpoint proto_free (v : json) : bool :=
  match v with
  | JArr items => forallb proto_free items
  | JObj fs =>
      negb (has_key "__proto__" fs)
      && forallb (fun kv => let '(_, x) := kv in proto_free x) fs
  | _ => true
  end.

Fixpoint forallb2 {A : Type} (f : A -> A -> bool) (xs ys : list A) : bool :=
  match xs, ys with
  | [], [] => true
  | x :: xs', y :: ys' => f x y && forallb2 f xs' ys'
  | _, _ => false
  end.

(** A test for [same_content], to depth [n]. *)
Fixpoint same_contentb (n : nat) (v w : json) : bool :=
  match n with
  | O => false
  | S n' =>
      match v, w with
      | JNull, JNull => true
      | JBool a, JBool b => Bool.eqb a b
      | JNum a, JNum b => Z.eqb a b
      | JStr a, JStr b => String.eqb a b
      | JArr xs, JArr ys => forallb2 (same_contentb n') xs ys
      | JObj fs, JObj gs =>
          forallb (fun kv =>
                     match lookup (fst kv) fs, lookup (fst kv) gs with
                     | Some x, Some y => same_contentb n' x y
                     | _, _ => false
                     end) fs
          && forallb (fun kv => has_key (fst kv) fs) gs
      | _, _ => false
      end
  end.

(** [no_default s]: no [.default(..)] occurs in [s]. *)
Fixpoint no_default (s : schema) : bool :=
  match s with
  | ZDefault _ _ => false
  | ZOptional inner => no_default inner
  | ZArray element => no_default element
  | ZObject shape _ =>
      forallb (fun kv => let '(_, el) := kv in no_default el) shape
  | ZUnion options => forallb no_default options
  | _ => true
  end.

(** Schemas that return their input as it is. *)
Definition is_leaf (s : schema) : bool :=
  match s with
  | ZString _ | ZBoolean | ZLiteral _ | ZUnknown => true
  | _ => false
  end.

Fixpoint unique_keys (ks : list string) : bool :=
  match ks with
  | [] => true
  | k :: rest => negb (existsb (String.eqb k) rest) && unique_keys rest
  end.

(** [reparse_safe s] holds of every schema the module writes: the keys of
    a shape are distinct (it is an object literal) and none is [__proto__],
    a default sits on a leaf schema that accepts it, and in a union every
    option after the first is free of defaults and keeps unknown keys. *)
Fixpoint reparse_safe (s : schema) : bool :=
  match s with
  | ZOptional inner => reparse_safe inner
  | ZDefault inner d => is_leaf inner && is_ok (parse inner (Some d))
  | ZArray element => reparse_safe element
  | ZObject shape _ =>
      unique_keys (keys shape)
      && negb (has_key "__proto__" shape)
      && forallb (fun kv => let '(_, el) := kv in reparse_safe el) shape
  | ZUnion options =>
      forallb reparse_safe options
      && forallb (fun o => no_default o && all_passthrough o) (tl options)
  | _ => true
  end.

(** Every schema the module declares. *)
Definition module_schemas : list schema :=
  RequestSchema :: passthrough_schemas.

(** The schemas of the module that keep unknown keys and apply no default:
    all of [passthrough_schemas] but the content dialect and the union
    built on it. *)
Definition faithful_schemas : list schema :=
  [ClientOrServerImplementationSchema; BaseParamsSchema; ResultSchema;
   ServerCapabilitiesSchema; InitializeResultSchema; PaginatedResultSchema;
   ToolSchema; ListToolsResultSchema; TextContentSchema; ImageContentSchema;
   ResourceContentsSchema; TextResourceContentsSchema;
   BlobResourceContentsSchema; EmbeddedResourceSchema; ContentPartSchema;
   LegacyDialectSchema].

(** The result schemas: [ResultSchema] and what [.extend] builds on it. *)
Definition result_schemas : list schema :=
  [ResultSchema; InitializeResultSchema; PaginatedResultSchema;
   ListToolsResultSchema; ContentDialectSchema; LegacyDialectSchema].

(* ================================================================== *)
(** ** The schemas in plain terms *)
(* ================================================================== *)

Definition absent_or_object (x : option json) : bool :=
  match x with None => true | Some (JObj _) => true | _ => false end.

Definition absent_or_bool (x : option json) : bool :=
  match x with None => true | Some (JBool _) => true | _ => false end.

Definition is_the_string (lit : string) (x : option json) : bool :=
  match x with Some (JStr s) => String.eqb s lit | _ => false end.

(** A tool descriptor: [name] is a string, [description] is absent or a
    string, [inputSchema] is an object whose [type] is the string
    ["object"] and whose [properties] is absent or an object. *)
Definition tool_ok (t : json) : bool :=
  match t with
  | JObj fs =>
      is_string (lookup "name" fs)
      && absent_or_string (lookup "description" fs)
      && match lookup "inputSchema" fs with
         | Some (JObj ins) =>
             is_the_string "object" (lookup "type" ins)
             && absent_or_object (lookup "properties" ins)
         | _ => false
         end
  | _ => false
  end.

(** A page of the tool catalog: an object with a good [_meta], a
    [nextCursor] that is absent or a string, and an array [tools] of tool
    descriptors. *)
Definition list_tools_ok (v : json) : bool :=
  match v with
  | JObj fs =>
      meta_ok fs
      && absent_or_string (lookup "nextCursor" fs)
      && match lookup "tools" fs with
         | Some (JArr ts) => forallb tool_ok ts
         | _ => false
         end
  | _ => false
  end.

(** A capability that is absent, or an object whose flags [names] are each
    absent or a boolean. *)
Definition flags_ok (names : list string) (x : option json) : bool :=
  match x with
  | None => true
  | Some (JObj fs) => forallb (fun n => absent_or_bool (lookup n fs)) names
  | Some _ => false
  end.

Definition capabilities_ok (x : option json) : bool :=
  match x with
  | Some (JObj cs) =>
      absent_or_object (lookup "experimental" cs)
      && absent_or_object (lookup "logging" cs)
      && flags_ok ["listChanged"] (lookup "prompts" cs)
      && flags_ok ["subscribe"; "listChanged"] (lookup "resources" cs)
      && flags_ok ["listChanged"] (lookup "tools" cs)
  | _ => false
  end.

Definition implementation_ok (x : option json) : bool :=
  match x with
  | Some (JObj fs) =>
      is_string (lookup "name" fs) && is_string (lookup "version" fs)
  | _ => false
  end.

(** An initialize result: an object with a good [_meta], a string
    [protocolVersion], well-formed [capabilities] and [serverInfo], and
    [instructions] absent or a string. *)
Definition initialize_ok (v : json) : bool :=
  match v with
  | JObj fs =>
      meta_ok fs
      && is_string (lookup "protocolVersion" fs)
      && capabilities_ok (lookup "capabilities" fs)
      && implementation_ok (lookup "serverInfo" fs)
      && absent_or_string (lookup "instructions" fs)
  | _ => false
  end.

(** A content part, by its [type]. *)
Definition content_part_ok (v : json) : bool :=
  match v with
  | JObj fs =>
      match lookup "type" fs with
      | Some (JStr t) =>
          if String.eqb t "text" then is_string (lookup "text" fs)
          else if String.eqb t "image" then
            is_base64_string (lookup "data" fs)
            && is_string (lookup "mimeType" fs)
          else if String.eqb t "resource" then
            match lookup "resource" fs with
            | Some (JObj rs) => resource_ok rs
            | _ => false
            end
          else false
      | _ => false
      end
  | _ => false
  end.

(** The two dialects of a tool result as the specification describes
    them, to be compared with what the operands of [CallToolResultSchema]
    accept: the content dialect is an object with a [content] array of
    valid parts and an optional boolean [isError]; the legacy dialect is an
    object with a [toolResult]. *)
Definition content_dialect (v : json) : bool :=
  match v with
  | JObj fs =>
      match lookup "content" fs with
      | Some (JArr parts) => forallb content_part_ok parts
      | _ => false
      end
      && absent_or_bool (lookup "isError" fs)
  | _ => false
  end.

Definition legacy_dialect (v : json) : bool :=
  match v with
  | JObj fs => present (lookup "toolResult" fs)
  | _ => false
  end.

(** An object whose [_meta] is absent or an object. *)
Definition object_with_good_meta (v : json) : bool :=
  match v with
  | JObj fs => meta_ok fs
  | _ => false
  end.

(** A request: [method] is a string, [params] is absent or an object with
    a good [_meta]. *)
Definition request_ok (v : json) : bool :=
  match v with
  | JObj fs =>
      is_string (lookup "method" fs)
      && match lookup "params" fs with
         | None => true
         | Some (JObj ps) => meta_ok ps
         | Some _ => false
         end
  | _ => false
  end.

(** The keys a schema names at the top level of the object it validates. *)
Fixpoint top_keys (s : schema) : list string :=
  match s with
  | ZObject shape _ => keys shape
  | ZOptional inner => top_keys inner
  | ZDefault inner _ => top_keys inner
  | ZUnion options => flat_map top_keys options
  | _ => []
  end.

(* ================================================================== *)
(** ** Sample payloads *)
(* ================================================================== *)

Module Samples.

(** [{toolResult: 42}] *)
Definition legacy_42 : json := JObj [("toolResult", JNum 42)].

(** [{content: [{type: "text", text: "hi"}]}], no [isError]. *)
Definition content_hi : json :=
  JObj [("content", JArr [JObj [("type", JStr "text"); ("text", JStr "hi")]])].

(** A payload both dialects accept. *)
Definition both_dialects : json :=
  JObj [("content", JArr []); ("toolResult", JNum 42)].

(** A result with annotations the schemas do not know, at the top level,
    inside [_meta] and inside a content part. *)
Definition annotated_fields : list (string * json) :=
  [("_meta", JObj [("progressToken", JNum 7)]);
   ("content",
    JArr [JObj [("type", JStr "text"); ("text", JStr "hi");
                ("annotations", JObj [("priority", JNum 1)])]]);
   ("traceId", JStr "t-1")].

(** What [CallToolResultSchema] returns for it. *)
Definition annotated_decoded : list (string * json) :=
  [("_meta", JObj [("progressToken", JNum 7)]);
   ("content",
    JArr [JObj [("type", JStr "text"); ("text", JStr "hi");
                ("annotations", JObj [("priority", JNum 1)])]]);
   ("isError", JBool false);
   ("traceId", JStr "t-1")].

(** A request with a top-level key [RequestSchema] does not declare. *)
Definition request_fields : list (string * json) :=
  [("method", JStr "tools/list");
   ("traceId", JStr "t-1");
   ("params", JObj [("cursor", JStr "c1")])].

(** An object whose [_meta] is not an object. *)
Definition bad_meta : json := JObj [("_meta", JNum 5)].

(** An object whose [content] is not an array. *)
Definition bad_content : list (string * json) := [("content", JNum 3)].

(** A well-formed [content] array beside a [_meta] that is a number. *)
Definition good_content_bad_meta : list (string * json) :=
  [("_meta", JNum 5); ("content", JArr [])].

(** Resource objects: with [text] only, with [blob] only, with both, with
    neither, and with a [text] that is not a string. *)
Definition text_resource : list (string * json) :=
  [("uri", JStr "file:///a.txt"); ("text", JStr "hello")].
Definition blob_resource : list (string * json) :=
  [("uri", JStr "file:///a.bin"); ("blob", JStr "aGVsbG8=")].
Definition text_and_blob_resource : list (string * json) :=
  [("uri", JStr "file:///a.txt"); ("text", JStr "hello");
   ("blob", JStr "aGVsbG8=")].
Definition bare_resource : list (string * json) :=
  [("uri", JStr "file:///a.txt")].

Definition resource_part (rs : list (string * json)) : list (string * json) :=
  [("type", JStr "resource"); ("resource", JObj rs)].

(** Pages of a tool catalog, as the server sends them. *)
Definition tool (n : string) : json :=
  JObj [("name", JStr n); ("inputSchema", JObj [("type", JStr "object")])].
Definition page_with_cursor (n c : string) : json :=
  JObj [("tools", JArr [tool n]); ("nextCursor", JStr c)].
Definition final_page (n : string) : json :=
  JObj [("tools", JArr [tool n])].

(** The annotated result with its keys in another order. *)
Definition annotated_reordered : list (string * json) :=
  [("traceId", JStr "t-1");
   ("content",
    JArr [JObj [("annotations", JObj [("priority", JNum 1)]);
                ("text", JStr "hi"); ("type", JStr "text")]]);
   ("_meta", JObj [("progressToken", JNum 7)])].

(** An initialize result, keys out of shape order, with a field the schema
    does not declare. *)
Definition initialize_fields : list (string * json) :=
  [("serverInfo", JObj [("version", JStr "1.0"); ("name", JStr "srv")]);
   ("vendor", JStr "acme");
   ("capabilities", JObj [("tools", JObj [])]);
   ("protocolVersion", JStr "2025-06-18")].

(** A tool result flagged as an error. *)
Definition failed_call : list (string * json) :=
  [("isError", JBool true);
   ("content", JArr [JObj [("type", JStr "text"); ("text", JStr "boom")]])].

(** What [InitializeResultSchema] returns for [initialize_fields]. *)
Definition initialize_decoded : list (string * json) :=
  [("protocolVersion", JStr "2025-06-18");
   ("capabilities", JObj [("tools", JObj [])]);
   ("serverInfo", JObj [("name", JStr "srv"); ("version", JStr "1.0")]);
   ("vendor", JStr "acme")].

(** What [CallToolResultSchema] returns for [failed_call]. *)
Definition failed_call_decoded : list (string * json) :=
  [("content", JArr [JObj [("type", JStr "text"); ("text", JStr "boom")]]);
   ("isError", JBool true)].

(** What [RequestSchema] returns for [request_fields]. *)
Definition request_decoded : list (string * json) :=
  [("method", JStr "tools/list");
   ("params", JObj [("cursor", JStr "c1")])].

(** Params with an own key [__proto__], as [JSON.parse] yields for
    [{"__proto__": {"x": 1}, "a": 1}]. *)
Definition params_with_proto : list (string * json) :=
  [("__proto__", JObj [("x", JNum 1)]); ("a", JNum 1)].

(** A transport on which nothing was sent yet; the peer answers every
    call in the legacy dialect. *)
Definition idle_transport : Proxy.transport :=
  Proxy.mkTransport (fun _ => legacy_42) [].

End Samples.

Module PaginatorFacts.
Import Paginator.

(** The cursor of the request that follows pages carrying [cs]. *)
Fixpoint next_request (sent : option string) (cs : list string)
  : option string :=
  match cs with
  | [] => sent
  | c :: rest => next_request (Some c) rest
  end.

End PaginatorFacts.

(* ================================================================== *)
(** * Properties *)
(* ================================================================== *)

(** ** Lists of bindings *)

Lemma lookup_app {A : Type} (k : string) (xs ys : list (string * A)) :
  lookup k (xs ++ ys) =
  match lookup k xs with Some v => Some v | None => lookup k ys end.
Proof.
  induction xs as [|[k' v] xs IH]; simpl; [reflexivity|].
  destruct (String.eqb k k'); [reflexivity | exact IH].
Qed.

Lemma lookup_none_has_key {A : Type} (k : string) (fs : list (string * A)) :
  lookup k fs = None <-> has_key k fs = false.
Proof.
  unfold has_key, keys.
  induction fs as [|[k' v] fs IH]; simpl; [tauto|].
  destruct (String.eqb k k'); simpl; [split; discriminate | exact IH].
Qed.

Lemma lookup_unrecognized {A : Type} (k : string) (shape : list (string * A))
  (fs : list (string * json)) :
  has_key k shape = false ->
  k <> "__proto__" ->
  lookup k (unrecognized shape fs) = lookup k fs.
Proof.
  intros Hk Hp. apply String.eqb_neq in Hp. unfold unrecognized.
  induction fs as [|[k' v] fs IH]; simpl; [reflexivity|].
  destruct (String.eqb k k') eqn:E.
  - apply String.eqb_eq in E. subst k'. rewrite Hk, Hp. simpl.
    now rewrite String.eqb_refl.
  - destruct (negb (has_key k' shape) && negb (String.eqb k' "__proto__"));
      simpl; [rewrite E|]; exact IH.
Qed.

Lemma lookup_map_shape {A B : Type} (f : string -> A -> B) (k : string)
  (shape : list (string * A)) :
  lookup k (map (fun kv => let '(k', el) := kv in (k', f k' el)) shape) =
  option_map (f k) (lookup k shape).
Proof.
  induction shape as [|[k' el] shape IH]; simpl; [reflexivity|].
  destruct (String.eqb k k') eqn:E; [|exact IH].
  apply String.eqb_eq in E. now subst k'.
Qed.

(** ** Induction on schemas *)

Section SchemaInduction.

Variable P : schema -> Prop.
Hypothesis HString : forall cs, P (ZString cs).
Hypothesis HBoolean : P ZBoolean.
Hypothesis HLiteral : forall lit, P (ZLiteral lit).
Hypothesis HUnknown : P ZUnknown.
Hypothesis HOptional : forall inner, P inner -> P (ZOptional inner).
Hypothesis HDefault : forall inner d, P inner -> P (ZDefault inner d).
Hypothesis HArray : forall element, P element -> P (ZArray element).
Hypothesis HObject : forall shape c,
    Forall (fun kv => P (snd kv)) shape -> P (ZObject shape c).
Hypothesis HUnion : forall options, Forall P options -> P (ZUnion options).

Fixpoint schema_nested_ind (s : schema) : P s :=
  match s with
  | ZString cs => HString cs
  | ZBoolean => HBoolean
  | ZLiteral lit => HLiteral lit
  | ZUnknown => HUnknown
  | ZOptional inner => HOptional inner (schema_nested_ind inner)
  | ZDefault inner d => HDefault inner d (schema_nested_ind inner)
  | ZArray element => HArray element (schema_nested_ind element)
  | ZObject shape c =>
      HObject shape c
        ((fix fields (l : list (string * schema))
            : Forall (fun kv => P (snd kv)) l :=
            match l with
            | [] => Forall_nil _
            | kv :: rest =>
                Forall_cons kv (schema_nested_ind (snd kv)) (fields rest)
            end) shape)
  | ZUnion options =>
      HUnion options
        ((fix opts (l : list schema) : Forall P l :=
            match l with
            | [] => Forall_nil _
            | o :: rest => Forall_cons o (schema_nested_ind o) (opts rest)
            end) options)
  end.

End SchemaInduction.

(** ** How results are gathered *)

Lemma first_ok_Ok (rs : list (result jsval)) (v : jsval) :
  first_ok rs = Ok v -> In (Ok v) rs.
Proof.
  induction rs as [|[w|iss] rs IH]; simpl; intros H.
  - discriminate.
  - left. exact H.
  - right. auto.
Qed.

Lemma is_ok_first_ok (rs : list (result jsval)) :
  is_ok (first_ok rs) = existsb is_ok rs.
Proof.
  induction rs as [|[w|iss] rs IH]; simpl; auto.
Qed.

Lemma is_ok_collect_fields (rs : list (string * result jsval)) :
  is_ok (collect_fields rs) = forallb (fun kr => is_ok (snd kr)) rs.
Proof.
  induction rs as [|[k [[v|]|iss]] rs IH]; simpl; trivial;
    destruct (collect_fields rs); simpl in *; auto.
Qed.

Lemma is_ok_collect_items (i : nat) (rs : list (result jsval)) :
  is_ok (collect_items i rs) = forallb is_ok rs.
Proof.
  revert i. induction rs as [|[[v|]|iss] rs IH]; intros i; simpl; trivial;
    specialize (IH (S i)); destruct (collect_items (S i) rs); simpl in *; auto.
Qed.

(** A key of the gathered fields is a key that was asked for. *)
Lemma collect_fields_keys (rs : list (string * result jsval))
  (vs : list (string * json)) (k : string) :
  collect_fields rs = Ok vs -> lookup k rs = None -> lookup k vs = None.
Proof.
  revert vs. induction rs as [|[k' r] rs IH]; simpl; intros vs H Hk.
  - now inversion H.
  - destruct (String.eqb k k') eqn:E; [discriminate|].
    destruct r as [[v|]|iss]; destruct (collect_fields rs) as [ws|js];
      try discriminate; inversion H; subst; simpl; try rewrite E; auto.
Qed.

(** The first result asked for a key is the one bound in the output. *)
Lemma collect_fields_lookup (rs : list (string * result jsval))
  (vs : list (string * json)) (k : string) (y : json) :
  collect_fields rs = Ok vs -> lookup k rs = Some (Ok (Some y)) ->
  lookup k vs = Some y.
Proof.
  revert vs. induction rs as [|[k' r] rs IH]; simpl; intros vs H Hk.
  - discriminate.
  - destruct (String.eqb k k') eqn:E.
    + inversion Hk; subst r.
      destruct (collect_fields rs); [|discriminate].
      inversion H; subst. simpl. now rewrite E.
    + destruct r as [[v|]|iss]; destruct (collect_fields rs) as [ws|js];
        try discriminate; inversion H; subst; simpl; try rewrite E; auto.
Qed.

Lemma collect_fields_all_ok (rs : list (string * result jsval))
  (vs : list (string * json)) (k : string) (r : result jsval) :
  collect_fields rs = Ok vs -> lookup k rs = Some r -> is_ok r = true.
Proof.
  revert vs. induction rs as [|[k' r'] rs IH]; simpl; intros vs H Hk.
  - discriminate.
  - destruct (String.eqb k k').
    + inversion Hk; subst r'.
      destruct r as [[v|]|iss]; [reflexivity | reflexivity |].
      destruct (collect_fields rs); discriminate.
    + destruct r' as [[v|]|iss]; destruct (collect_fields rs) as [ws|js];
        try discriminate; eapply IH; eauto.
Qed.

Lemma collect_items_Forall2 (f : json -> result jsval) (i : nat)
  (xs vs : list json) :
  collect_items i (map f xs) = Ok vs ->
  Forall2 (fun x v => f x = Ok (Some v) \/ (f x = Ok None /\ v = JNull)) xs vs.
Proof.
  revert i vs. induction xs as [|x xs IH]; simpl; intros i vs H.
  - inversion H. constructor.
  - destruct (f x) as [[v|]|iss] eqn:E;
      destruct (collect_items (S i) (map f xs)) as [ws|js] eqn:C;
      try discriminate; inversion H; subst; constructor; eauto.
Qed.

(** ** What [parse] accepts *)

Lemma accepts_union (options : list schema) (x : jsval) :
  is_ok (parse (ZUnion options) x) =
  existsb (fun o => is_ok (parse o x)) options.
Proof.
  simpl. rewrite is_ok_first_ok.
  induction options as [|o os IH]; simpl; [reflexivity | now rewrite IH].
Qed.

Lemma accepts_object (shape : list (string * schema)) (c : unknown_keys)
  (fs : list (string * json)) :
  is_ok (parse (ZObject shape c) (Some (JObj fs))) =
  forallb (fun kv => is_ok (parse (snd kv) (lookup (fst kv) fs))) shape.
Proof.
  simpl.
  match goal with |- is_ok (match ?r with _ => _ end) = _ =>
    transitivity (is_ok r); [now destruct r|] end.
  rewrite is_ok_collect_fields.
  induction shape as [|[k el] shape IH]; simpl; [reflexivity | now rewrite IH].
Qed.

Lemma accepts_array (element : schema) (items : list json) :
  is_ok (parse (ZArray element) (Some (JArr items))) =
  forallb (fun v => is_ok (parse element (Some v))) items.
Proof.
  simpl.
  match goal with |- is_ok (match ?r with _ => _ end) = _ =>
    transitivity (is_ok r); [now destruct r|] end.
  rewrite is_ok_collect_items.
  induction items as [|v vs IH]; simpl; [reflexivity | now rewrite IH].
Qed.

(** A defined input never decodes to [undefined]. *)
Lemma parse_defined (s : schema) :
  forall (v : json) (r : jsval),
    parse s (Some v) = Ok r -> exists y, r = Some y.
Proof.
  induction s as [cs| |lit| |inner IH|inner d IH|element IH|shape c IH|options IH]
    using schema_nested_ind; intros v r H; simpl in H.
  - destruct v; try discriminate.
    destruct (run_checks cs s); inversion H; eauto.
  - destruct v; try discriminate. inversion H; eauto.
  - destruct v; try discriminate.
    destruct (String.eqb s lit); inversion H; eauto.
  - inversion H; eauto.
  - destruct (optin inner).
    + destruct (parse inner (Some v)) eqn:E; [|discriminate].
      inversion H; subst. eauto.
    + eauto.
  - destruct (parse inner (Some v)) as [[y|]|iss] eqn:E;
      inversion H; subst; eauto.
  - destruct v; try discriminate.
    destruct (collect_items 0 _); inversion H; eauto.
  - destruct v; try discriminate.
    destruct (collect_fields _); inversion H; eauto.
  - apply first_ok_Ok in H. apply in_map_iff in H.
    destruct H as [o [Ho Hin]].
    rewrite Forall_forall in IH. eauto.
Qed.

(** ** Round trip: what validation keeps *)

Lemma keeps_parse (s : schema) :
  all_passthrough s = true ->
  forall (v r : json), parse s (Some v) = Ok (Some r) -> keeps s v r.
Proof.
  induction s as [cs| |lit| |inner IH|inner d IH|element IH|shape c IH|options IH]
    using schema_nested_ind; intros Hp v r H; simpl in H, Hp.
  - destruct v; try discriminate.
    destruct (run_checks cs s); inversion H; constructor.
  - destruct v; try discriminate. inversion H; constructor.
  - destruct v; try discriminate.
    destruct (String.eqb s lit); inversion H; constructor.
  - inversion H; constructor.
  - constructor. apply IH; [exact Hp|].
    destruct (optin inner); [|exact H].
    destruct (parse inner (Some v)); [exact H | discriminate].
  - constructor. apply IH; [exact Hp|].
    destruct (parse inner (Some v)) as [[y|]|iss] eqn:E; try exact H.
    apply parse_defined in E. destruct E; discriminate.
  - destruct v; try discriminate.
    destruct (collect_items 0 _) as [vs|] eqn:C; inversion H; subst.
    constructor. apply collect_items_Forall2 in C. clear H.
    induction C as [|x y xs ys Hxy _ IHC]; constructor; [|exact IHC].
    destruct Hxy as [E|[E _]].
    + now apply IH.
    + apply parse_defined in E. destruct E; discriminate.
  - destruct c; [discriminate|].
    destruct v; try discriminate.
    destruct (collect_fields _) as [known|] eqn:C; inversion H; subst.
    constructor.
    + intros k Hk Hproto. rewrite lookup_app.
      rewrite (collect_fields_keys _ _ k C).
      * simpl. apply lookup_unrecognized; [|exact Hproto].
        now apply lookup_none_has_key.
      * rewrite (lookup_map_shape (fun k' el => parse el (lookup k' fields))).
        now rewrite Hk.
    + intros k el x Hk Hx.
      assert (L : lookup k (map (fun kv => let '(k', el') := kv in
                    (k', parse el' (lookup k' fields))) shape)
                  = Some (parse el (Some x))).
      { rewrite (lookup_map_shape (fun k' el' => parse el' (lookup k' fields))).
        rewrite Hk. simpl. now rewrite Hx. }
      pose proof (collect_fields_all_ok _ _ _ _ C L) as Hok.
      destruct (parse el (Some x)) as [r'|] eqn:E; [|discriminate].
      destruct (parse_defined _ _ _ E) as [y ->].
      exists y. split.
      * rewrite lookup_app. now rewrite (collect_fields_lookup _ _ _ _ C L).
      * rewrite Forall_forall in IH.
        assert (Hin : In (k, el) shape).
        { clear - Hk. induction shape as [|[k' e'] sh IHs]; simpl in *;
            [discriminate|].
          destruct (String.eqb k k') eqn:E'.
          - apply String.eqb_eq in E'. inversion Hk; subst. now left.
          - right. auto. }
        apply (IH _ Hin); [|exact E].
        rewrite forallb_forall in Hp. exact (Hp _ Hin).
  - apply first_ok_Ok in H. apply in_map_iff in H.
    destruct H as [o [Ho Hin]].
    apply keeps_union with (o := o); [exact Hin|].
    rewrite Forall_forall in IH. apply IH; [exact Hin| |exact Ho].
    rewrite forallb_forall in Hp. auto.
Qed.

Lemma passthrough_schemas_all (s : schema) :
  In s passthrough_schemas -> all_passthrough s = true.
Proof.
  intros H. repeat (destruct H as [<-|H]; [reflexivity|]). destruct H.
Qed.

(** C7 (as amended).  For every schema of the module whose objects are all
    [.passthrough()] -- every exported schema except [RequestSchema] -- a
    successful validation of a JSON value returns a JSON value that keeps
    every field of the input not named [__proto__]: at each object, top
    level or nested, a key other than [__proto__] that the shape does not
    know is bound to the identical value, and a known key that was present
    is still present with a value that keeps its own fields in the same
    sense. *)
Theorem validation_keeps_unrecognized_fields (s : schema) (v : json)
  (r : jsval) :
  In s passthrough_schemas ->
  safeParse s v = Ok r ->
  exists r', r = Some r' /\ keeps s v r'.
Proof.
  intros Hs H. unfold safeParse in H.
  destruct (parse_defined _ _ _ H) as [r' ->].
  exists r'. split; [reflexivity|].
  apply keeps_parse; [now apply passthrough_schemas_all | exact H].
Qed.

(** ** The two dialects of a tool result *)

Lemma accepts_meta (fs : list (string * json)) :
  is_ok (parse (ZOptional (ZObject [] Passthrough)) (lookup "_meta" fs))
  = meta_ok fs.
Proof.
  unfold meta_ok. destruct (lookup "_meta" fs) as [[]|]; reflexivity.
Qed.

Lemma accepts_LegacyDialect (v : json) :
  accepts LegacyDialectSchema v =
  match v with JObj fs => meta_ok fs | _ => false end.
Proof.
  unfold accepts, safeParse.
  destruct v as [| | | | |fs]; try reflexivity.
  change LegacyDialectSchema with
    (ZObject [("_meta", ZOptional (ZObject [] Passthrough));
              ("toolResult", ZUnknown)] Passthrough).
  rewrite accepts_object. cbn [forallb fst snd].
  rewrite accepts_meta. cbn [parse is_ok]. now rewrite !andb_true_r.
Qed.

Lemma accepts_ContentDialect (v : json) :
  accepts ContentDialectSchema v =
  match v with
  | JObj fs =>
      meta_ok fs
      && match lookup "content" fs with
         | Some (JArr parts) => forallb (accepts ContentPartSchema) parts
         | _ => false
         end
      && match lookup "isError" fs with
         | None | Some (JBool _) => true
         | Some _ => false
         end
  | _ => false
  end.
Proof.
  unfold accepts, safeParse.
  destruct v as [| | | | |fs]; try reflexivity.
  change ContentDialectSchema with
    (ZObject [("_meta", ZOptional (ZObject [] Passthrough));
              ("content", ZArray ContentPartSchema);
              ("isError", ZOptional (ZDefault ZBoolean (JBool false)))]
       Passthrough).
  rewrite accepts_object. cbn [forallb fst snd].
  rewrite accepts_meta, andb_true_r, andb_assoc. f_equal; [f_equal|].
  - destruct (lookup "content" fs) as [[| | | |parts|]|]; try reflexivity.
    now rewrite accepts_array.
  - destruct (lookup "isError" fs) as [[]|]; reflexivity.
Qed.

Lemma accepts_z_or (a b : schema) (v : json) :
  accepts (z_or a b) v = accepts a v || accepts b v.
Proof.
  unfold accepts, safeParse, z_or.
  rewrite accepts_union. cbn [existsb]. now rewrite orb_false_r.
Qed.

(** The union succeeds with the result of its first operand that does. *)
Lemma union_first_wins (a b : schema) (x r : jsval) :
  parse a x = Ok r -> parse (z_or a b) x = Ok r.
Proof.
  intros H. unfold z_or. cbn [parse map first_ok]. now rewrite H.
Qed.

(** C8.  When a payload validates against the content dialect -- be it
    also valid for the legacy dialect -- [CallToolResultSchema] returns the
    content dialect's decoding: the operands of [.or] are tried in the
    order they are written. *)
Theorem CallToolResult_prefers_content_dialect (v : json) (ra rb : jsval) :
  safeParse ContentDialectSchema v = Ok ra ->
  safeParse LegacyDialectSchema v = Ok rb ->
  safeParse CallToolResultSchema v = Ok ra.
Proof.
  intros Ha _. now apply union_first_wins.
Qed.

Lemma CallToolResult_prefers_content_dialect_witness :
  safeParse CallToolResultSchema Samples.both_dialects =
    Ok (Some (JObj [("content", JArr []); ("isError", JBool false);
                    ("toolResult", JNum 42)]))
  /\ safeParse LegacyDialectSchema Samples.both_dialects =
    Ok (Some (JObj [("toolResult", JNum 42); ("content", JArr [])])).
Proof.
  split.
  - apply (CallToolResult_prefers_content_dialect Samples.both_dialects _
             (Some (JObj [("toolResult", JNum 42); ("content", JArr [])])));
      reflexivity.
  - reflexivity.
Defined.

Lemma parse_object_inv (shape : list (string * schema)) (c : unknown_keys)
  (fs : list (string * json)) (r : jsval) :
  parse (ZObject shape c) (Some (JObj fs)) = Ok r ->
  exists known,
    collect_fields
      (map (fun kv => let '(k, el) := kv in (k, parse el (lookup k fs))) shape)
    = Ok known
    /\ r = Some (JObj (known ++ catch_all c shape fs)).
Proof.
  cbn [parse]. intros H.
  destruct (collect_fields _) as [known|]; [|discriminate].
  exists known. split; [reflexivity | now inversion H].
Qed.

(** A known key whose schema yields [y] for what the input binds to it is
    bound to [y] in the output. *)
Lemma parse_object_known (shape : list (string * schema)) (c : unknown_keys)
  (fs gs : list (string * json)) (k : string) (el : schema) (y : json) :
  parse (ZObject shape c) (Some (JObj fs)) = Ok (Some (JObj gs)) ->
  lookup k shape = Some el ->
  parse el (lookup k fs) = Ok (Some y) ->
  lookup k gs = Some y.
Proof.
  intros H Hk Hy. apply parse_object_inv in H. destruct H as [known [C R]].
  inversion R; subst gs. rewrite lookup_app.
  rewrite (collect_fields_lookup _ _ k y C); [reflexivity|].
  rewrite (lookup_map_shape (fun k' el' => parse el' (lookup k' fs))).
  rewrite Hk. simpl. now rewrite Hy.
Qed.

(** C3.  A payload that the content dialect accepts and that has no
    [isError] key decodes, through [CallToolResultSchema], to an object
    whose [isError] is [false]: the default is applied although the field
    is optional. *)
Theorem CallToolResult_isError_defaults_to_false (fs : list (string * json)) :
  accepts ContentDialectSchema (JObj fs) = true ->
  lookup "isError" fs = None ->
  exists gs,
    safeParse CallToolResultSchema (JObj fs) = Ok (Some (JObj gs))
    /\ lookup "isError" gs = Some (JBool false).
Proof.
  intros Hacc Habs. unfold accepts in Hacc.
  destruct (safeParse ContentDialectSchema (JObj fs)) as [r|] eqn:E;
    [clear Hacc | discriminate].
  unfold safeParse in *.
  destruct (parse_object_inv _ _ _ _ E) as [known [_ ->]].
  eexists. split.
  - unfold CallToolResultSchema. apply union_first_wins. exact E.
  - apply (parse_object_known _ _ _ _ "isError"
             (ZOptional (ZDefault ZBoolean (JBool false))) _ E).
    + reflexivity.
    + now rewrite Habs.
Qed.

Lemma CallToolResult_isError_defaults_to_false_witness :
  exists gs,
    safeParse CallToolResultSchema Samples.content_hi = Ok (Some (JObj gs))
    /\ lookup "isError" gs = Some (JBool false).
Proof.
  apply (CallToolResult_isError_defaults_to_false
           [("content",
             JArr [JObj [("type", JStr "text"); ("text", JStr "hi")]])]);
    reflexivity.
Defined.

(** C9 (as stated, refuted).  An object whose [_meta] is a number is turned
    down by both operands of the union. *)
Lemma CallToolResult_rejects_bad_meta :
  safeParse CallToolResultSchema Samples.bad_meta
  = Err [mkIssue invalid_union []].
Proof. reflexivity. Qed.

Lemma accepts_CallToolResult (v : json) :
  accepts CallToolResultSchema v =
  match v with JObj fs => meta_ok fs | _ => false end.
Proof.
  unfold CallToolResultSchema. rewrite accepts_z_or.
  rewrite accepts_ContentDialect, accepts_LegacyDialect.
  destruct v as [| | | | |fs]; try reflexivity.
  destruct (meta_ok fs); [apply orb_true_r | reflexivity].
Qed.

(** C9 (as amended).  Every JSON object whose [_meta] is absent or is
    itself an object validates against [CallToolResultSchema], whatever its
    other fields are: the legacy operand asks nothing of [toolResult], not
    even that the key be there. *)
Theorem CallToolResult_accepts_object_with_good_meta
  (fs : list (string * json)) :
  meta_ok fs = true -> accepts CallToolResultSchema (JObj fs) = true.
Proof.
  intros H. now rewrite accepts_CallToolResult.
Qed.

Lemma CallToolResult_accepts_object_with_good_meta_witness :
  accepts CallToolResultSchema (JObj []) = true
  /\ accepts CallToolResultSchema (JObj Samples.bad_content) = true.
Proof.
  split.
  - apply (CallToolResult_accepts_object_with_good_meta []). reflexivity.
  - apply (CallToolResult_accepts_object_with_good_meta Samples.bad_content).
    reflexivity.
Defined.

(** C10.  [LATEST_PROTOCOL_VERSION] is a member of
    [SUPPORTED_PROTOCOL_VERSIONS], and its first element. *)
Theorem latest_is_supported_and_first :
  In LATEST_PROTOCOL_VERSION SUPPORTED_PROTOCOL_VERSIONS
  /\ hd_error SUPPORTED_PROTOCOL_VERSIONS = Some LATEST_PROTOCOL_VERSION.
Proof.
  split; [left|]; reflexivity.
Qed.

(** ** Resource content parts *)

Lemma accepts_string (x : jsval) : is_ok (parse z_string x) = is_string x.
Proof. destruct x as [[]|]; reflexivity. Qed.

Lemma accepts_optional_string (x : jsval) :
  is_ok (parse (ZOptional z_string) x) = absent_or_string x.
Proof. destruct x as [[]|]; reflexivity. Qed.

Lemma accepts_base64 (x : jsval) :
  is_ok (parse (ZString [Base64]) x) = is_base64_string x.
Proof.
  destruct x as [[| | |s| |]|]; try reflexivity.
  cbn. destruct (is_base64 s); reflexivity.
Qed.

Lemma accepts_resource_union (rs : list (string * json)) :
  is_ok (parse (ZUnion [TextResourceContentsSchema; BlobResourceContentsSchema])
           (Some (JObj rs)))
  = resource_ok rs.
Proof.
  rewrite accepts_union. cbn [existsb].
  change TextResourceContentsSchema with
    (ZObject [("uri", z_string); ("mimeType", ZOptional z_string);
              ("text", z_string)] Passthrough).
  change BlobResourceContentsSchema with
    (ZObject [("uri", z_string); ("mimeType", ZOptional z_string);
              ("blob", ZString [Base64])] Passthrough).
  rewrite !accepts_object. cbn [forallb fst snd].
  rewrite !accepts_string, !accepts_optional_string, accepts_base64.
  unfold resource_ok.
  destruct (is_string (lookup "uri" rs)),
    (absent_or_string (lookup "mimeType" rs)),
    (is_string (lookup "text" rs)),
    (is_base64_string (lookup "blob" rs)); reflexivity.
Qed.

Lemma accepts_EmbeddedResource (fs rs : list (string * json)) :
  lookup "type" fs = Some (JStr "resource") ->
  lookup "resource" fs = Some (JObj rs) ->
  accepts EmbeddedResourceSchema (JObj fs) = resource_ok rs.
Proof.
  intros Ht Hr. unfold accepts, safeParse.
  change EmbeddedResourceSchema with
    (ZObject [("type", ZLiteral "resource");
              ("resource",
               ZUnion [TextResourceContentsSchema; BlobResourceContentsSchema])]
       Passthrough).
  rewrite accepts_object. cbn [forallb fst snd].
  rewrite Ht, Hr, accepts_resource_union.
  cbn. now rewrite andb_true_r.
Qed.

(** C2 (as stated, refuted).  A resource part whose resource carries both
    [text] and [blob] is accepted, and returned with both. *)
Lemma EmbeddedResource_accepts_text_and_blob :
  exactly_one_of_text_blob Samples.text_and_blob_resource = false
  /\ safeParse EmbeddedResourceSchema
       (JObj (Samples.resource_part Samples.text_and_blob_resource))
     = Ok (Some (JObj (Samples.resource_part Samples.text_and_blob_resource))).
Proof. split; reflexivity. Qed.

(** C2 (as amended).  A content part of type [resource] is accepted exactly
    when its resource has a string [uri], a [mimeType] that is absent or a
    string, and a string [text] or a base64 string [blob].  So a resource
    with neither [text] nor [blob] is rejected, and a resource with exactly
    one of them is accepted when that one (and [uri], [mimeType]) is well
    typed.  Nothing rejects a resource for carrying both. *)
Theorem EmbeddedResource_accepts_iff (fs rs : list (string * json)) :
  lookup "type" fs = Some (JStr "resource") ->
  lookup "resource" fs = Some (JObj rs) ->
  accepts EmbeddedResourceSchema (JObj fs) = resource_ok rs
  /\ (lookup "text" rs = None -> lookup "blob" rs = None ->
      accepts EmbeddedResourceSchema (JObj fs) = false).
Proof.
  intros Ht Hr. rewrite (accepts_EmbeddedResource fs rs Ht Hr).
  split; [reflexivity|].
  intros H1 H2. unfold resource_ok. rewrite H1, H2. cbn.
  now rewrite andb_false_r.
Qed.

Lemma EmbeddedResource_accepts_iff_witness :
  accepts EmbeddedResourceSchema
    (JObj (Samples.resource_part Samples.text_resource)) = true
  /\ accepts EmbeddedResourceSchema
    (JObj (Samples.resource_part Samples.blob_resource)) = true
  /\ accepts EmbeddedResourceSchema
    (JObj (Samples.resource_part Samples.bare_resource)) = false.
Proof.
  split; [|split].
  - apply (EmbeddedResource_accepts_iff
             (Samples.resource_part Samples.text_resource)
             Samples.text_resource); reflexivity.
  - apply (EmbeddedResource_accepts_iff
             (Samples.resource_part Samples.blob_resource)
             Samples.blob_resource); reflexivity.
  - apply (EmbeddedResource_accepts_iff
             (Samples.resource_part Samples.bare_resource)
             Samples.bare_resource); reflexivity.
Defined.

(** ** Round trip on the module's schemas *)

Lemma validation_keeps_unrecognized_fields_witness :
  exists r',
    Some (JObj Samples.annotated_decoded) = Some r'
    /\ keeps CallToolResultSchema (JObj Samples.annotated_fields) r'.
Proof.
  apply (validation_keeps_unrecognized_fields CallToolResultSchema
           (JObj Samples.annotated_fields)
           (Some (JObj Samples.annotated_decoded))).
  - do 16 right. left. reflexivity.
  - reflexivity.
Defined.

(** C7 (as stated, refuted).  [RequestSchema] is a plain [z.object]: a
    top-level key it does not declare is gone after validation, while the
    unknown key inside [params] stays. *)
Lemma RequestSchema_strips_unknown_key :
  lookup "traceId" Samples.request_fields = Some (JStr "t-1")
  /\ exists gs,
      safeParse RequestSchema (JObj Samples.request_fields)
      = Ok (Some (JObj gs))
      /\ lookup "traceId" gs = None
      /\ lookup "params" gs = Some (JObj [("cursor", JStr "c1")]).
Proof.
  split; [reflexivity|].
  eexists. split; [reflexivity|]. split; reflexivity.
Qed.

(** ** Version negotiation *)

Lemma existsb_eqb_In (x : string) (l : list string) :
  existsb (String.eqb x) l = true <-> In x l.
Proof.
  rewrite existsb_exists. split.
  - intros [y [Hy E]]. apply String.eqb_eq in E. now subst.
  - intros H. exists x. split; [exact H | apply String.eqb_refl].
Qed.

(** C4.  A version offered by the server that is a member of
    [SUPPORTED_PROTOCOL_VERSIONS] is adopted as it is; any other version
    fails the handshake with [ProtocolVersionMismatch], which carries the
    supported list and the offered value, and leaves a session on which
    every operation is refused. *)
Theorem negotiation_adopts_or_fails (offered : string) :
  (In offered SUPPORTED_PROTOCOL_VERSIONS ->
   Negotiator.start_session offered
   = (Negotiator.Established offered, Done offered))
  /\ (~ In offered SUPPORTED_PROTOCOL_VERSIONS ->
      Negotiator.start_session offered
      = (Negotiator.Unusable,
         Failed (ProtocolVersionMismatch SUPPORTED_PROTOCOL_VERSIONS offered))
      /\ forall (A : Type) (op : string -> outcome A),
          Negotiator.with_session (fst (Negotiator.start_session offered)) op
          = Failed SessionUnusable).
Proof.
  unfold Negotiator.start_session, Negotiator.negotiate.
  destruct (existsb (String.eqb offered) SUPPORTED_PROTOCOL_VERSIONS) eqn:E.
  - apply existsb_eqb_In in E. split; [reflexivity | contradiction].
  - split.
    + intros H. apply existsb_eqb_In in H. congruence.
    + intros _. split; reflexivity.
Qed.

Lemma negotiation_adopts_or_fails_witness :
  Negotiator.start_session "2025-03-26"
  = (Negotiator.Established "2025-03-26", Done "2025-03-26")
  /\ Negotiator.start_session "2023-01-01"
     = (Negotiator.Unusable,
        Failed (ProtocolVersionMismatch SUPPORTED_PROTOCOL_VERSIONS
                  "2023-01-01")).
Proof.
  split.
  - apply (negotiation_adopts_or_fails "2025-03-26").
    right. left. reflexivity.
  - apply (negotiation_adopts_or_fails "2023-01-01").
    intros [H|[H|[H|[]]]]; discriminate H.
Defined.

(** ** Pagination *)

Module PaginatorProofs.
Import Paginator PaginatorFacts.

(** Pages that carry fresh cursors are consumed one after the other. *)
Lemma fetch_pages_cursor_pages (raws : list json) (ps : list page)
  (cs : list string) :
  cursor_pages raws ps cs ->
  forall sent acc tail,
    no_repeat sent cs = true ->
    fetch_pages sent acc (raws ++ tail)
    = fetch_pages (next_request sent cs) (acc ++ flat_map tools ps) tail.
Proof.
  induction 1 as [|raw ts c raws ps cs Hd _ IH]; intros sent acc tail Hn.
  - cbn. now rewrite app_nil_r.
  - cbn [no_repeat] in Hn. apply andb_true_iff in Hn. destruct Hn as [Hc Hn].
    apply negb_true_iff in Hc.
    cbn [app fetch_pages]. rewrite Hd. cbn [nextCursor tools]. rewrite Hc.
    rewrite IH by exact Hn.
    cbn [next_request flat_map tools].
    now rewrite app_assoc.
Qed.

Lemma requested_cursors_cursor_pages (raws : list json) (ps : list page)
  (cs : list string) :
  cursor_pages raws ps cs ->
  forall sent tail,
    no_repeat sent cs = true ->
    requested_cursors sent (raws ++ tail)
    = removelast (sent :: map Some cs)
      ++ requested_cursors (next_request sent cs) tail.
Proof.
  induction 1 as [|raw ts c raws ps cs Hd _ IH]; intros sent tail Hn.
  - reflexivity.
  - cbn [no_repeat] in Hn. apply andb_true_iff in Hn. destruct Hn as [Hc Hn].
    apply negb_true_iff in Hc.
    cbn [app requested_cursors]. rewrite Hd. cbn [nextCursor]. rewrite Hc.
    rewrite IH by exact Hn. reflexivity.
Qed.

Lemma requests_of_cursors (sent : option string) (cs : list string) :
  removelast (sent :: map Some cs) ++ [next_request sent cs]
  = sent :: map Some cs.
Proof.
  revert sent. induction cs as [|c cs IH]; intros sent; [reflexivity|].
  change (sent :: (removelast (Some c :: map Some cs)
                   ++ [next_request (Some c) cs])
          = sent :: Some c :: map Some cs).
  now rewrite IH.
Qed.

End PaginatorProofs.

(** C5.  Let the server answer with pages that carry the cursors [cs], no
    cursor being the one just sent.  If the next page has no [nextCursor],
    the aggregate returns the tools of all pages, concatenated in page
    order, having sent first no cursor and then each page's cursor.  If the
    next page carries again the cursor just sent, the aggregate fails with
    [PaginationLoopError] -- an [outcome] that holds no list at all --
    whatever the server would answer afterwards. *)
Theorem listTools_concatenates_or_detects_loop (raws : list json)
  (ps : list Paginator.page) (cs : list string) :
  Paginator.cursor_pages raws ps cs ->
  Paginator.no_repeat None cs = true ->
  (forall last ts,
      Paginator.decode_page last = Done (Paginator.mkPage ts None) ->
      Paginator.listTools (raws ++ [last])
      = Done (flat_map Paginator.tools (ps ++ [Paginator.mkPage ts None]))
      /\ Paginator.requested_cursors None (raws ++ [last])
         = None :: map Some cs)
  /\ (forall again ts c rest,
        Paginator.decode_page again = Done (Paginator.mkPage ts (Some c)) ->
        PaginatorFacts.next_request None cs = Some c ->
        Paginator.listTools (raws ++ again :: rest)
        = Failed (PaginationLoopError c)).
Proof.
  intros Hp Hn. split.
  - intros last ts Hd. split.
    + unfold Paginator.listTools.
      rewrite (PaginatorProofs.fetch_pages_cursor_pages _ _ _ Hp) by exact Hn.
      cbn [Paginator.fetch_pages]. rewrite Hd. cbn [Paginator.nextCursor].
      rewrite flat_map_app. cbn. now rewrite app_nil_r.
    + rewrite (PaginatorProofs.requested_cursors_cursor_pages _ _ _ Hp)
        by exact Hn.
      cbn [Paginator.requested_cursors]. rewrite Hd. cbn [Paginator.nextCursor].
      apply PaginatorProofs.requests_of_cursors.
  - intros again ts c rest Hd Hc. unfold Paginator.listTools.
    rewrite (PaginatorProofs.fetch_pages_cursor_pages _ _ _ Hp) by exact Hn.
    cbn [Paginator.fetch_pages]. rewrite Hd, Hc. cbn.
    now rewrite String.eqb_refl.
Qed.

Lemma listTools_concatenates_or_detects_loop_witness :
  Paginator.listTools
    [Samples.page_with_cursor "a" "c1"; Samples.page_with_cursor "b" "c2";
     Samples.final_page "c"]
  = Done [Samples.tool "a"; Samples.tool "b"; Samples.tool "c"]
  /\ Paginator.listTools
       [Samples.page_with_cursor "a" "c1"; Samples.page_with_cursor "b" "c2";
        Samples.page_with_cursor "c" "c2"; Samples.final_page "d"]
     = Failed (PaginationLoopError "c2").
Proof.
  pose proof (listTools_concatenates_or_detects_loop
                [Samples.page_with_cursor "a" "c1";
                 Samples.page_with_cursor "b" "c2"]
                [Paginator.mkPage [Samples.tool "a"] (Some "c1");
                 Paginator.mkPage [Samples.tool "b"] (Some "c2")]
                ["c1"; "c2"]) as H.
  destruct H as [Hall Hloop].
  - repeat constructor.
  - reflexivity.
  - split.
    + apply (Hall (Samples.final_page "c") [Samples.tool "c"]). reflexivity.
    + apply (Hloop (Samples.page_with_cursor "c" "c2") [Samples.tool "c"]
               "c2" [Samples.final_page "d"]); reflexivity.
Defined.

(** ** Tool proxies *)

(** C6.  A proxy validates its input against the tool's input schema before
    anything is sent.  When validation fails, [execute] returns
    [InputValidationError] with the tool's name and the issues of the
    validation (each with the path it was raised at) and the transport is
    as before: nothing was sent.  When validation succeeds, exactly one
    request has been added to those sent: a [tools/call] with the tool's
    name and the input. *)
Theorem execute_validates_before_sending (p : Proxy.ToolProxy) (input : json)
  (t : Proxy.transport) :
  (forall iss,
      safeParse (Proxy.inputSchema p) input = Err iss ->
      Proxy.execute p input t
      = (Failed (InputValidationError (Proxy.toolName p) iss), t))
  /\ (accepts (Proxy.inputSchema p) input = true ->
      Proxy.sent (snd (Proxy.execute p input t))
      = Proxy.sent t
        ++ [Proxy.mkCall "tools/call" (Proxy.toolName p) input]).
Proof.
  unfold Proxy.execute, accepts. split.
  - intros iss H. now rewrite H.
  - intros H. destruct (safeParse (Proxy.inputSchema p) input) as [v|];
      [|discriminate].
    cbn [Proxy.send].
    destruct (safeParse CallToolResultSchema _) as [[r|]|]; reflexivity.
Qed.

Lemma execute_validates_before_sending_witness :
  Proxy.execute (Proxy.mkProxy "search" Proxy.query_schema)
    (JObj [("query", JStr "")]) Samples.idle_transport
  = (Failed (InputValidationError "search"
               [mkIssue too_small [PKey "query"]]), Samples.idle_transport)
  /\ Proxy.sent
       (snd (Proxy.execute (Proxy.mkProxy "search" Proxy.query_schema)
               (JObj [("query", JStr "x")]) Samples.idle_transport))
     = [Proxy.mkCall "tools/call" "search" (JObj [("query", JStr "x")])].
Proof.
  split.
  - apply (execute_validates_before_sending
             (Proxy.mkProxy "search" Proxy.query_schema)
             (JObj [("query", JStr "")]) Samples.idle_transport).
    reflexivity.
  - apply (execute_validates_before_sending
             (Proxy.mkProxy "search" Proxy.query_schema)
             (JObj [("query", JStr "x")]) Samples.idle_transport).
    reflexivity.
Defined.

(* ================================================================== *)
(** * Further properties of the schemas *)
(* ================================================================== *)

(** ** Induction on JSON values *)

Section JsonInduction.

Variable P : json -> Prop.
Hypothesis HNull : P JNull.
Hypothesis HBool : forall b, P (JBool b).
Hypothesis HNum : forall n, P (JNum n).
Hypothesis HStr : forall s, P (JStr s).
Hypothesis HArr : forall items, Forall P items -> P (JArr items).
Hypothesis HObj : forall fields,
    Forall (fun kv => P (snd kv)) fields -> P (JObj fields).

Fixpoint json_nested_ind (v : json) : P v :=
  match v with
  | JNull => HNull
  | JBool b => HBool b
  | JNum n => HNum n
  | JStr s => HStr s
  | JArr items =>
      HArr items
        ((fix all (l : list json) : Forall P l :=
            match l with
            | [] => Forall_nil _
            | x :: rest => Forall_cons x (json_nested_ind x) (all rest)
            end) items)
  | JObj fields =>
      HObj fields
        ((fix all (l : list (string * json))
            : Forall (fun kv => P (snd kv)) l :=
            match l with
            | [] => Forall_nil _
            | kv :: rest =>
                Forall_cons kv (json_nested_ind (snd kv)) (all rest)
            end) fields)
  end.

End JsonInduction.

(** ** Content up to key order *)

Lemma lookup_In {A : Type} (k : string) (v : A) (fs : list (string * A)) :
  lookup k fs = Some v -> In (k, v) fs.
Proof.
  induction fs as [|[k' v'] fs IH]; simpl; [discriminate|].
  destruct (String.eqb k k') eqn:E.
  - apply String.eqb_eq in E. intros H. inversion H; subst. now left.
  - intros H. right. auto.
Qed.

Lemma same_content_refl (v : json) : same_content v v.
Proof.
  induction v as [| | | |items IH|fields IH] using json_nested_ind;
    try constructor.
  - induction IH; constructor; auto.
  - intros k x Hk. exists x. split; [exact Hk|].
    apply lookup_In in Hk. rewrite Forall_forall in IH.
    exact (IH _ Hk).
  - auto.
Qed.

Lemma same_jsval_refl (x : jsval) : same_jsval x x.
Proof.
  destruct x; simpl; [apply same_content_refl | exact I].
Qed.

Lemma same_content_lookup (fs gs : list (string * json)) (k : string) :
  same_content (JObj fs) (JObj gs) ->
  same_jsval (lookup k fs) (lookup k gs).
Proof.
  intros H. inversion H as [| | | | |fs' gs' Hsome Hnone]; subst.
  destruct (lookup k fs) as [x|] eqn:E.
  - destruct (Hsome _ _ E) as [y [-> Hy]]. exact Hy.
  - now rewrite (Hnone _ E).
Qed.

(** ** Validation does not look at the order of keys *)

Lemma forallb_Forall2_ext {A : Type} (R : A -> A -> Prop) (f : A -> bool)
  (xs ys : list A) :
  Forall2 R xs ys ->
  Forall2 (fun x y => R x y -> f x = f y) xs ys ->
  forallb f xs = forallb f ys.
Proof.
  intros HR. induction HR as [|x y xs ys Hxy _ IH]; intros HF;
    [reflexivity|].
  inversion HF; subst. simpl. f_equal; auto.
Qed.

Lemma accepts_same_jsval (s : schema) :
  forall x y : jsval,
    same_jsval x y -> is_ok (parse s x) = is_ok (parse s y).
Proof.
  induction s as [cs| |lit| |inner IH|inner d IH|element IH|shape c IH|options IH]
    using schema_nested_ind; intros x y Hxy.
  - destruct x as [v|], y as [w|]; try contradiction; [|reflexivity].
    simpl in Hxy. inversion Hxy; subst; reflexivity.
  - destruct x as [v|], y as [w|]; try contradiction; [|reflexivity].
    simpl in Hxy. inversion Hxy; subst; reflexivity.
  - destruct x as [v|], y as [w|]; try contradiction; [|reflexivity].
    simpl in Hxy. inversion Hxy; subst; reflexivity.
  - reflexivity.
  - specialize (IH x y Hxy). cbn [parse].
    destruct (optin inner).
    + destruct x as [v|], y as [w|]; try contradiction.
      * destruct (parse inner (Some v)), (parse inner (Some w));
          simpl in *; congruence.
      * destruct (parse inner None); reflexivity.
    + destruct x as [v|], y as [w|]; try contradiction;
        [exact IH | reflexivity].
  - specialize (IH x y Hxy). cbn [parse].
    destruct x as [v|], y as [w|]; try contradiction; [|reflexivity].
    destruct (parse inner (Some v)) as [[?|]|], (parse inner (Some w)) as [[?|]|];
      simpl in *; congruence.
  - destruct x as [v|], y as [w|]; try contradiction; [|reflexivity].
    simpl in Hxy.
    inversion Hxy as [| | | |xs ys HF|]; subst; try reflexivity.
    rewrite !accepts_array.
    apply forallb_Forall2_ext with (R := same_content); [exact HF|].
    clear - IH HF. induction HF; constructor; auto.
  - destruct x as [v|], y as [w|]; try contradiction; [|reflexivity].
    simpl in Hxy.
    inversion Hxy as [| | | | |fs gs Hsome Hnone]; subst; try reflexivity.
    rewrite !accepts_object.
    induction IH as [|[k el] shape Hel _ IHs]; [reflexivity|].
    cbn [forallb fst snd]. f_equal; [|exact IHs].
    apply Hel. now apply same_content_lookup.
  - rewrite !accepts_union.
    induction IH as [|o os Ho _ IHs]; [reflexivity|].
    cbn [existsb]. f_equal; [|exact IHs]. now apply Ho.
Qed.

(** ** What an object schema returns, key by key *)

Lemma collect_fields_In_ok (rs : list (string * result jsval))
  (vs : list (string * json)) (k : string) (r : result jsval) :
  collect_fields rs = Ok vs -> In (k, r) rs -> is_ok r = true.
Proof.
  intros H Hin.
  assert (E : is_ok (collect_fields rs) = true) by now rewrite H.
  rewrite is_ok_collect_fields, forallb_forall in E.
  exact (E _ Hin).
Qed.

Lemma collect_fields_absent (rs : list (string * result jsval))
  (vs : list (string * json)) (k : string) :
  collect_fields rs = Ok vs ->
  (forall r, In (k, r) rs -> r = Ok None) ->
  lookup k vs = None.
Proof.
  revert vs. induction rs as [|[k' r] rs IH]; simpl; intros vs H Hk.
  - now inversion H.
  - destruct (collect_fields rs) as [ws|js].
    + assert (Hws : lookup k ws = None) by (apply IH; auto).
      destruct r as [[v|]|iss]; inversion H; subst; simpl; [|exact Hws].
      destruct (String.eqb k k') eqn:E; [|exact Hws].
      apply String.eqb_eq in E. subst k'.
      specialize (Hk _ (or_introl eq_refl)). discriminate.
    + destruct r as [[v|]|iss]; discriminate.
Qed.

Lemma lookup_unrecognized_known {A : Type} (k : string)
  (shape : list (string * A)) (fs : list (string * json)) :
  has_key k shape = true -> lookup k (unrecognized shape fs) = None.
Proof.
  intros Hk. unfold unrecognized.
  induction fs as [|[k' v] fs IH]; simpl; [reflexivity|].
  destruct (has_key k' shape) eqn:E'; simpl; [exact IH|].
  destruct (String.eqb k' "__proto__"); simpl; [exact IH|].
  destruct (String.eqb k k') eqn:E; [|exact IH].
  apply String.eqb_eq in E. subst k'. congruence.
Qed.

Lemma lookup_unrecognized_proto {A : Type} (shape : list (string * A))
  (fs : list (string * json)) :
  lookup "__proto__" (unrecognized shape fs) = None.
Proof.
  unfold unrecognized.
  induction fs as [|[k' v] fs IH]; [reflexivity|].
  cbn [filter fst]. destruct (String.eqb k' "__proto__") eqn:E.
  - rewrite andb_false_r. exact IH.
  - destruct (negb (has_key k' shape)); cbn [andb negb]; [|exact IH].
    cbn [lookup]. rewrite String.eqb_sym, E. exact IH.
Qed.

Lemma lookup_unrecognized_none {A : Type} (k : string)
  (shape : list (string * A)) (fs : list (string * json)) :
  lookup k fs = None -> lookup k (unrecognized shape fs) = None.
Proof.
  unfold unrecognized.
  induction fs as [|[k' v] fs IH]; simpl; [reflexivity|].
  destruct (String.eqb k k') eqn:E; [discriminate|].
  intros H.
  destruct (negb (has_key k' shape) && negb (String.eqb k' "__proto__"));
    simpl; [rewrite E|]; auto.
Qed.

Lemma In_shape_results (shape : list (string * schema))
  (fs : list (string * json)) (k : string) (r : result jsval) :
  In (k, r)
    (map (fun kv => let '(k', el) := kv in (k', parse el (lookup k' fs))) shape) ->
  exists el, In (k, el) shape /\ r = parse el (lookup k fs).
Proof.
  intros H. apply in_map_iff in H. destruct H as [[k' el] [E Hin]].
  inversion E; subst. eauto.
Qed.

(** A key outside the shape: copied by [.passthrough()] unless it is
    [__proto__], dropped by a plain [z.object]. *)
Lemma parse_object_unknown_key (shape : list (string * schema))
  (c : unknown_keys) (fs gs : list (string * json)) (k : string) :
  parse (ZObject shape c) (Some (JObj fs)) = Ok (Some (JObj gs)) ->
  lookup k shape = None ->
  lookup k gs =
  match c with
  | Passthrough => if String.eqb k "__proto__" then None else lookup k fs
  | Strip => None
  end.
Proof.
  intros H Hk. apply parse_object_inv in H. destruct H as [known [C R]].
  inversion R; subst gs. rewrite lookup_app.
  rewrite (collect_fields_keys _ _ k C).
  - destruct c; simpl; [reflexivity|].
    destruct (String.eqb k "__proto__") eqn:E.
    + apply String.eqb_eq in E. subst k. apply lookup_unrecognized_proto.
    + apply lookup_unrecognized; [|now apply String.eqb_neq].
      now apply lookup_none_has_key.
  - rewrite (lookup_map_shape (fun k' el => parse el (lookup k' fs))).
    now rewrite Hk.
Qed.

(** A key of the shape that the input binds: its schema accepted the bound
    value, and the output binds the key to what the schema returned. *)
Lemma parse_object_known_key (shape : list (string * schema))
  (c : unknown_keys) (fs gs : list (string * json)) (k : string)
  (el : schema) (x : json) :
  parse (ZObject shape c) (Some (JObj fs)) = Ok (Some (JObj gs)) ->
  lookup k shape = Some el ->
  lookup k fs = Some x ->
  exists y, parse el (Some x) = Ok (Some y) /\ lookup k gs = Some y.
Proof.
  intros H Hk Hx.
  destruct (parse_object_inv _ _ _ _ H) as [known [C _]].
  assert (L : lookup k (map (fun kv => let '(k', el') := kv in
                (k', parse el' (lookup k' fs))) shape)
              = Some (parse el (Some x))).
  { rewrite (lookup_map_shape (fun k' el' => parse el' (lookup k' fs))).
    rewrite Hk. simpl. now rewrite Hx. }
  pose proof (collect_fields_all_ok _ _ _ _ C L) as Hok.
  destruct (parse el (Some x)) as [r'|] eqn:E; [|discriminate].
  destruct (parse_defined _ _ _ E) as [y ->].
  exists y. split; [reflexivity|].
  apply (parse_object_known _ _ _ _ _ _ _ H Hk). now rewrite Hx.
Qed.

(** ** Content up to keys named [__proto__] *)

Lemma sans_proto_refl (v : json) : sans_proto v v.
Proof.
  induction v as [| | | |items IH|fields IH] using json_nested_ind;
    try constructor.
  - induction IH; constructor; auto.
  - intros k x _ Hk. exists x. split; [exact Hk|].
    apply lookup_In in Hk. rewrite Forall_forall in IH.
    exact (IH _ Hk).
  - auto.
Qed.

Lemma sans_jsval_refl (x : jsval) : sans_jsval x x.
Proof.
  destruct x; simpl; [apply sans_proto_refl | exact I].
Qed.

Lemma sans_proto_lookup (fs gs : list (string * json)) (k : string) :
  sans_proto (JObj fs) (JObj gs) ->
  k <> "__proto__" ->
  sans_jsval (lookup k fs) (lookup k gs).
Proof.
  intros H Hk. inversion H as [| | | | |fs' gs' Hsome Hnone]; subst.
  destruct (lookup k fs) as [x|] eqn:E.
  - destruct (Hsome _ _ Hk E) as [y [-> Hy]]. exact Hy.
  - now rewrite (Hnone _ E).
Qed.

Lemma proto_free_lookup (fs : list (string * json)) (k : string) (x : json) :
  proto_free (JObj fs) = true -> lookup k fs = Some x ->
  k <> "__proto__" /\ proto_free x = true.
Proof.
  cbn [proto_free]. intros H Hk. apply andb_true_iff in H.
  destruct H as [Hp Hall]. apply negb_true_iff in Hp. split.
  - intros ->. apply lookup_none_has_key in Hp. congruence.
  - rewrite forallb_forall in Hall. exact (Hall _ (lookup_In _ _ _ Hk)).
Qed.

Lemma Forall2_sans_same (xs ys : list json) :
  Forall (fun v => forall w, proto_free v = true -> sans_proto v w ->
                             same_content v w) xs ->
  forallb proto_free xs = true ->
  Forall2 sans_proto xs ys ->
  Forall2 same_content xs ys.
Proof.
  intros IH Hp HF. revert IH Hp.
  induction HF as [|x y xs ys Hxy _ IHF]; intros IH Hp; constructor.
  - inversion IH; subst. cbn [forallb] in Hp.
    apply andb_true_iff in Hp. destruct Hp as [Hx _]. auto.
  - inversion IH; subst. cbn [forallb] in Hp.
    apply andb_true_iff in Hp. destruct Hp as [_ Hxs]. auto.
Qed.

(** Without keys named [__proto__] in the first value, nothing can be
    missing from the second. *)
Lemma sans_same (v : json) :
  forall w, proto_free v = true -> sans_proto v w -> same_content v w.
Proof.
  induction v as [| | | |items IH|fields IH] using json_nested_ind;
    intros w Hp H; inversion H as [| | | |xs ys HF|fs gs Hsome Hnone];
    subst; try constructor.
  - exact (Forall2_sans_same _ _ IH Hp HF).
  - intros k x Hk.
    destruct (proto_free_lookup _ _ _ Hp Hk) as [Hne Hx].
    destruct (Hsome _ _ Hne Hk) as [y [Ly Hy]].
    exists y. split; [exact Ly|].
    rewrite Forall_forall in IH.
    exact (IH _ (lookup_In _ _ _ Hk) _ Hx Hy).
  - exact Hnone.
Qed.


(** ** Schemas without defaults add nothing *)

Lemma parse_absent (s : schema) :
  no_default s = true ->
  forall r, parse s None = Ok r -> r = None.
Proof.
  induction s as [cs| |lit| |inner IH|inner d IH|element IH|shape c IH|options IH]
    using schema_nested_ind; intros Hn r H; simpl in H, Hn;
    try discriminate.
  - now inversion H.
  - destruct (optin inner).
    + destruct (parse inner None) eqn:E; inversion H; subst; auto.
    + now inversion H.
  - apply first_ok_Ok in H. apply in_map_iff in H.
    destruct H as [o [Ho Hin]].
    rewrite Forall_forall in IH. rewrite forallb_forall in Hn.
    exact (IH _ Hin (Hn _ Hin) _ Ho).
Qed.

(** A schema that keeps unknown keys and applies no default returns its
    input, less the keys named [__proto__] of the objects it validated. *)
Lemma faithful_sans (s : schema) :
  no_default s = true -> all_passthrough s = true ->
  forall x r, parse s x = Ok r -> sans_jsval x r.
Proof.
  induction s as [cs| |lit| |inner IH|inner d IH|element IH|shape c IH|options IH]
    using schema_nested_ind; intros Hn Hp x r H; simpl in H, Hn, Hp.
  - destruct x as [[]|]; try discriminate.
    destruct (run_checks cs s); inversion H. apply sans_jsval_refl.
  - destruct x as [[]|]; try discriminate. inversion H.
    apply sans_jsval_refl.
  - destruct x as [[]|]; try discriminate.
    destruct (String.eqb s lit); inversion H. apply sans_jsval_refl.
  - inversion H. apply sans_jsval_refl.
  - destruct (optin inner).
    + destruct (parse inner x) eqn:E.
      * inversion H; subst. eapply IH; eauto.
      * destruct x; [discriminate|]. inversion H. exact I.
    + destruct x; [eapply IH; eauto|]. inversion H. exact I.
  - discriminate.
  - destruct x as [[| | | |items|]|]; try discriminate.
    destruct (collect_items 0 _) as [vs|] eqn:C; inversion H; subst.
    simpl. constructor. apply collect_items_Forall2 in C. clear H.
    induction C as [|x y xs ys Hxy _ IHC]; constructor; [|exact IHC].
    destruct Hxy as [E|[E _]].
    + exact (IH Hn Hp _ _ E).
    + apply parse_defined in E. destruct E; discriminate.
  - destruct c; [discriminate|].
    destruct x as [[| | | | |fs]|]; try discriminate.
    destruct (parse_object_inv _ _ _ _ H) as [known [C ->]].
    rewrite Forall_forall in IH. rewrite forallb_forall in Hn, Hp.
    cbn [sans_jsval]. constructor.
    + intros k x Hproto Hx. destruct (lookup k shape) as [el|] eqn:Hk.
      * destruct (parse_object_known_key _ _ _ _ _ _ _ H Hk Hx)
          as [y [Ey Ly]].
        exists y. split; [exact Ly|].
        pose proof (lookup_In _ _ _ Hk) as Hin.
        exact (IH _ Hin (Hn _ Hin) (Hp _ Hin) _ _ Ey).
      * exists x. split; [|apply sans_proto_refl].
        rewrite (parse_object_unknown_key _ _ _ _ k H Hk).
        apply String.eqb_neq in Hproto. now rewrite Hproto.
    + intros k Hx. rewrite lookup_app.
      rewrite (collect_fields_absent _ _ k C).
      * cbn [catch_all]. now apply lookup_unrecognized_none.
      * intros r Hin. apply In_shape_results in Hin.
        destruct Hin as [el [Hin ->]]. rewrite Hx.
        assert (Hok : is_ok (parse el (lookup k fs)) = true).
        { apply (collect_fields_In_ok _ _ k _ C).
          apply in_map_iff. exists (k, el). split; [reflexivity | exact Hin]. }
        rewrite Hx in Hok.
        destruct (parse el None) as [r'|] eqn:E; [|discriminate].
        now rewrite (parse_absent el (Hn _ Hin) _ E).
  - apply first_ok_Ok in H. apply in_map_iff in H.
    destruct H as [o [Ho Hin]].
    rewrite Forall_forall in IH. rewrite forallb_forall in Hn, Hp.
    exact (IH _ Hin (Hn _ Hin) (Hp _ Hin) _ _ Ho).
Qed.

(** ** Validating a validated value *)

Lemma is_leaf_parse (s : schema) (x r : jsval) :
  is_leaf s = true -> parse s x = Ok r -> r = x.
Proof.
  destruct s; try discriminate; intros _ H; simpl in H.
  - destruct x as [[]|]; try discriminate.
    destruct (run_checks checks s); now inversion H.
  - destruct x as [[]|]; try discriminate. now inversion H.
  - destruct x as [[]|]; try discriminate.
    destruct (String.eqb s lit); now inversion H.
  - now inversion H.
Qed.

Lemma existsb_eqb_false (k : string) (ks : list string) :
  existsb (String.eqb k) ks = false -> ~ In k ks.
Proof.
  intros H Hin.
  assert (E : existsb (String.eqb k) ks = true).
  { apply existsb_exists. exists k. split; [exact Hin | apply String.eqb_refl]. }
  congruence.
Qed.

Lemma lookup_not_in_keys {A : Type} (k : string) (fs : list (string * A)) :
  ~ In k (keys fs) -> lookup k fs = None.
Proof.
  unfold keys. induction fs as [|[k' v] fs IH]; simpl; intros H;
    [reflexivity|].
  destruct (String.eqb k k') eqn:E.
  - apply String.eqb_eq in E. subst. tauto.
  - apply IH. tauto.
Qed.

(** With distinct keys, each key is bound to the result asked for it. *)
Lemma collect_fields_unique (rs : list (string * result jsval))
  (vs : list (string * json)) (k : string) (o : jsval) :
  unique_keys (keys rs) = true ->
  In (k, Ok o) rs ->
  collect_fields rs = Ok vs ->
  lookup k vs = o.
Proof.
  revert vs. induction rs as [|[k' r] rs IH]; intros vs Hu Hin C.
  - destruct Hin.
  - cbn [keys map fst unique_keys] in Hu. apply andb_true_iff in Hu.
    destruct Hu as [Hk' Hu]. apply negb_true_iff in Hk'.
    apply existsb_eqb_false in Hk'.
    cbn [collect_fields] in C.
    destruct Hin as [Heq|Hin].
    + inversion Heq; subst k' r.
      destruct (collect_fields rs) as [ws|] eqn:Cs;
        [|destruct o; discriminate].
      assert (Hws : lookup k ws = None).
      { apply (collect_fields_keys _ _ k Cs).
        now apply lookup_not_in_keys. }
      destruct o as [v|]; inversion C; subst; simpl;
        [now rewrite String.eqb_refl | exact Hws].
    + assert (Hne : String.eqb k k' = false).
      { apply String.eqb_neq. intros ->. apply Hk'.
        change (In (fst (k', Ok o)) (map fst rs)). now apply in_map. }
      destruct (collect_fields rs) as [ws|] eqn:Cs.
      * specialize (IH ws Hu Hin eq_refl).
        destruct r as [[v|]|]; try discriminate;
          injection C as <-; simpl; [now rewrite Hne | exact IH].
      * destruct r as [[v|]|]; discriminate.
Qed.


Lemma keys_shape_results (shape : list (string * schema))
  (fs : list (string * json)) :
  keys (map (fun kv => let '(k, el) := kv in (k, parse el (lookup k fs))) shape)
  = keys shape.
Proof.
  unfold keys. rewrite map_map. apply map_ext. now intros [k el].
Qed.

Lemma has_key_In {A : Type} (k : string) (fs : list (string * A)) :
  In k (keys fs) -> has_key k fs = true.
Proof.
  intros H. unfold has_key. apply existsb_exists.
  exists k. split; [exact H | apply String.eqb_refl].
Qed.







(** What an object with distinct shape keys binds a key of its shape to. *)
Lemma parse_object_bound (shape : list (string * schema)) (c : unknown_keys)
  (fs gs : list (string * json)) (k : string) (el : schema) :
  unique_keys (keys shape) = true ->
  parse (ZObject shape c) (Some (JObj fs)) = Ok (Some (JObj gs)) ->
  In (k, el) shape ->
  parse el (lookup k fs) = Ok (lookup k gs).
Proof.
  intros Hu H Hin.
  destruct (parse_object_inv _ _ _ _ H) as [known [C R]].
  inversion R; subst gs.
  assert (Hr : In (k, parse el (lookup k fs))
                 (map (fun kv => let '(k, el) := kv in
                    (k, parse el (lookup k fs))) shape)).
  { apply in_map_iff. exists (k, el). split; [reflexivity | exact Hin]. }
  pose proof (collect_fields_In_ok _ _ _ _ C Hr) as Hok.
  destruct (parse el (lookup k fs)) as [ok|] eqn:E; [|discriminate].
  f_equal.
  assert (Lk : lookup k known = ok).
  { eapply collect_fields_unique; [|exact Hr|exact C].
    now rewrite keys_shape_results. }
  rewrite lookup_app, Lk.
  destruct ok; [reflexivity|].
  destruct c; [reflexivity|]. symmetry.
  apply lookup_unrecognized_known. apply has_key_In.
  change (In (fst (k, el)) (map fst shape)). now apply in_map.
Qed.

Lemma faithful_schemas_all (s : schema) :
  In s faithful_schemas ->
  no_default s = true /\ all_passthrough s = true.
Proof.
  intros H.
  repeat (destruct H as [<-|H]; [split; reflexivity|]). destruct H.
Qed.

Lemma module_schemas_reparse_safe (s : schema) :
  In s module_schemas -> reparse_safe s = true.
Proof.
  intros H. repeat (destruct H as [<-|H]; [reflexivity|]). destruct H.
Qed.

Lemma forallb2_Forall2 {A : Type} (R : A -> A -> Prop) (f : A -> A -> bool)
  (xs ys : list A) :
  (forall x y, f x y = true -> R x y) ->
  forallb2 f xs ys = true -> Forall2 R xs ys.
Proof.
  intros Hf. revert ys.
  induction xs as [|x xs IH]; intros [|y ys] H; simpl in H;
    try discriminate; constructor.
  - apply Hf. now apply andb_true_iff in H.
  - apply IH. now apply andb_true_iff in H.
Qed.

Lemma same_contentb_sound (n : nat) :
  forall v w, same_contentb n v w = true -> same_content v w.
Proof.
  induction n as [|n IH]; intros v w H; [discriminate|].
  destruct v, w; simpl in H; try discriminate.
  - constructor.
  - apply Bool.eqb_prop in H. subst. constructor.
  - apply Z.eqb_eq in H. subst. constructor.
  - apply String.eqb_eq in H. subst. constructor.
  - constructor. exact (forallb2_Forall2 _ _ _ _ IH H).
  - apply andb_true_iff in H. destruct H as [Hf Hg].
    rewrite forallb_forall in Hf, Hg.
    constructor.
    + intros k x Hk. specialize (Hf _ (lookup_In _ _ _ Hk)).
      cbn [fst] in Hf. rewrite Hk in Hf.
      destruct (lookup k fields0) as [y|]; [|discriminate].
      exists y. split; [reflexivity | now apply IH].
    + intros k Hk. destruct (lookup k fields0) as [y|] eqn:E; [|reflexivity].
      specialize (Hg _ (lookup_In _ _ _ E)). cbn [fst] in Hg.
      apply lookup_none_has_key in Hk. congruence.
Qed.

(** ** The module's schemas, as a whole *)

(** X1.  Whether a payload validates does not depend on the order in which
    its objects list their keys: two payloads with the same content are
    both accepted or both rejected, by any schema built from the
    combinators the module uses. *)
Theorem validation_ignores_key_order (s : schema) (v w : json) :
  same_content v w -> accepts s v = accepts s w.
Proof.
  intros H. unfold accepts, safeParse.
  now apply accepts_same_jsval.
Qed.

Lemma validation_ignores_key_order_witness :
  accepts CallToolResultSchema (JObj Samples.annotated_reordered) = true.
Proof.
  rewrite <- (validation_ignores_key_order CallToolResultSchema
                (JObj Samples.annotated_fields)
                (JObj Samples.annotated_reordered)).
  - reflexivity.
  - apply (same_contentb_sound 6). reflexivity.
Defined.

(** X2.  The schemas that keep unknown keys and apply no default -- all
    but [RequestSchema], the content dialect and [CallToolResultSchema] --
    return what they were given, up to the order of keys and up to keys
    named [__proto__], which may be missing from the result: no key is
    added, no key of another name is dropped, no value is changed.  For a
    payload without any key named [__proto__] the validated value has the
    same content as the payload. *)
Theorem faithful_schemas_return_the_payload (s : schema) (v : json)
  (r : jsval) :
  In s faithful_schemas ->
  safeParse s v = Ok r ->
  exists r',
    r = Some r'
    /\ sans_proto v r'
    /\ (proto_free v = true -> same_content v r').
Proof.
  intros Hs H. destruct (faithful_schemas_all s Hs) as [Hn Hp].
  pose proof (faithful_sans s Hn Hp _ _ H) as Hsans.
  destruct r as [r'|]; [|contradiction].
  exists r'. split; [reflexivity|]. split; [exact Hsans|].
  intros Hf. now apply sans_same.
Qed.

Lemma faithful_schemas_return_the_payload_witness :
  same_content (JObj Samples.initialize_fields)
               (JObj Samples.initialize_decoded)
  /\ sans_proto (JObj Samples.params_with_proto) (JObj [("a", JNum 1)]).
Proof.
  split.
  - destruct (faithful_schemas_return_the_payload InitializeResultSchema
                (JObj Samples.initialize_fields)
                (Some (JObj Samples.initialize_decoded)))
      as [r' [E [_ Hsame]]].
    + do 4 right. left. reflexivity.
    + reflexivity.
    + inversion E; subst r'. apply Hsame. reflexivity.
  - destruct (faithful_schemas_return_the_payload BaseParamsSchema
                (JObj Samples.params_with_proto)
                (Some (JObj [("a", JNum 1)])))
      as [r' [E [Hsans _]]].
    + right. left. reflexivity.
    + reflexivity.
    + inversion E; subst r'. exact Hsans.
Defined.



(** ** Requests *)

(** X4.  What [RequestSchema] returns has at most two keys: [method],
    bound to the very string of the request, and [params], present exactly
    when the request has it and then with the content it had, up to keys
    named [__proto__] which may be missing.  Every other top-level key of
    the request is gone. *)
Theorem RequestSchema_returns_method_and_params (v : json) (r : jsval) :
  safeParse RequestSchema v = Ok r ->
  exists fs gs,
    v = JObj fs /\ r = Some (JObj gs)
    /\ lookup "method" gs = lookup "method" fs
    /\ sans_jsval (lookup "params" fs) (lookup "params" gs)
    /\ forall k, k <> "method" -> k <> "params" -> lookup k gs = None.
Proof.
  unfold safeParse. intros H.
  destruct v as [| | | | |fs]; try discriminate.
  destruct (parse_object_inv _ _ _ _ H) as [known [_ ->]].
  exists fs. eexists. split; [reflexivity|]. split; [reflexivity|].
  split; [|split].
  - pose proof (parse_object_bound
                  [("method", z_string); ("params", ZOptional BaseParamsSchema)]
                  Strip _ _ "method" z_string eq_refl H
                  (or_introl eq_refl)) as E.
    exact (is_leaf_parse z_string _ _ eq_refl E).
  - pose proof (parse_object_bound
                  [("method", z_string); ("params", ZOptional BaseParamsSchema)]
                  Strip _ _ "params"
                  (ZOptional BaseParamsSchema) eq_refl H
                  (or_intror (or_introl eq_refl))) as E.
    exact (faithful_sans (ZOptional BaseParamsSchema) eq_refl eq_refl _ _ E).
  - intros k Hm Hp.
    apply (parse_object_unknown_key
             [("method", z_string); ("params", ZOptional BaseParamsSchema)]
             Strip _ _ k H).
    cbn. apply String.eqb_neq in Hm, Hp. now rewrite Hm, Hp.
Qed.

Lemma RequestSchema_returns_method_and_params_witness :
  exists fs gs,
    JObj Samples.request_fields = JObj fs
    /\ Some (JObj Samples.request_decoded) = Some (JObj gs)
    /\ lookup "method" gs = lookup "method" fs
    /\ sans_jsval (lookup "params" fs) (lookup "params" gs)
    /\ forall k, k <> "method" -> k <> "params" -> lookup k gs = None.
Proof.
  apply (RequestSchema_returns_method_and_params
           (JObj Samples.request_fields)
           (Some (JObj Samples.request_decoded))).
  reflexivity.
Defined.

(** ** Tool results *)

Lemma ContentDialect_output (fs gs : list (string * json)) :
  parse ContentDialectSchema (Some (JObj fs)) = Ok (Some (JObj gs)) ->
  (forall k, k <> "isError" -> k <> "__proto__" ->
     sans_jsval (lookup k fs) (lookup k gs))
  /\ lookup "__proto__" gs = None
  /\ (lookup "isError" gs = lookup "isError" fs
      \/ (lookup "isError" fs = None
          /\ lookup "isError" gs = Some (JBool false)))
  /\ lookup "toolResult" gs = lookup "toolResult" fs.
Proof.
  set (shape := [("_meta", ZOptional (ZObject [] Passthrough));
                 ("content", ZArray ContentPartSchema);
                 ("isError", ZOptional (ZDefault ZBoolean (JBool false)))]).
  change ContentDialectSchema with (ZObject shape Passthrough).
  intros H. split; [|split; [|split]].
  - intros k Hk Hproto.
    destruct (String.eqb k "_meta") eqn:Em.
    { apply String.eqb_eq in Em. subst k.
      pose proof (parse_object_bound shape Passthrough _ _ "_meta"
                    (ZOptional (ZObject [] Passthrough)) eq_refl H
                    (or_introl eq_refl)) as E.
      exact (faithful_sans (ZOptional (ZObject [] Passthrough))
               eq_refl eq_refl _ _ E). }
    destruct (String.eqb k "content") eqn:Ec.
    { apply String.eqb_eq in Ec. subst k.
      pose proof (parse_object_bound shape Passthrough _ _ "content"
                    (ZArray ContentPartSchema) eq_refl H
                    (or_intror (or_introl eq_refl))) as E.
      exact (faithful_sans (ZArray ContentPartSchema)
               eq_refl eq_refl _ _ E). }
    rewrite (parse_object_unknown_key shape Passthrough _ _ k H).
    + apply String.eqb_neq in Hproto. rewrite Hproto.
      apply sans_jsval_refl.
    + cbn. rewrite Em, Ec. apply String.eqb_neq in Hk. now rewrite Hk.
  - exact (parse_object_unknown_key shape Passthrough _ _ "__proto__" H
             eq_refl).
  - pose proof (parse_object_bound shape Passthrough _ _ "isError"
                  (ZOptional (ZDefault ZBoolean (JBool false))) eq_refl H
                  (or_intror (or_intror (or_introl eq_refl)))) as E.
    destruct (lookup "isError" fs) as [x|].
    + left. destruct x; try discriminate. cbn in E. now inversion E.
    + right. cbn in E. split; [reflexivity | now inversion E].
  - exact (parse_object_unknown_key shape Passthrough _ _ "toolResult" H
             eq_refl).
Qed.

Lemma LegacyDialect_output (fs gs : list (string * json)) :
  parse LegacyDialectSchema (Some (JObj fs)) = Ok (Some (JObj gs)) ->
  sans_proto (JObj fs) (JObj gs)
  /\ lookup "__proto__" gs = None
  /\ lookup "isError" gs = lookup "isError" fs
  /\ lookup "toolResult" gs = lookup "toolResult" fs.
Proof.
  set (shape := [("_meta", ZOptional (ZObject [] Passthrough));
                 ("toolResult", ZUnknown)]).
  change LegacyDialectSchema with (ZObject shape Passthrough).
  intros H. split; [|split; [|split]].
  - exact (faithful_sans (ZObject shape Passthrough) eq_refl eq_refl _ _ H).
  - exact (parse_object_unknown_key shape Passthrough _ _ "__proto__" H
             eq_refl).
  - exact (parse_object_unknown_key shape Passthrough _ _ "isError" H eq_refl).
  - pose proof (parse_object_bound shape Passthrough _ _ "toolResult"
                  ZUnknown eq_refl H (or_intror (or_introl eq_refl))) as E.
    cbn in E. now inversion E.
Qed.

(** X5.  What [CallToolResultSchema] returns is the payload, up to key
    order, except possibly for [isError] and for keys named [__proto__]:
    every key other than these two is bound to the content it had (or
    unbound in both), keys named [__proto__] inside [_meta] and the content
    parts put aside; the result has no top-level key [__proto__];
    [isError] is bound as in the payload, or to [false] when the payload
    has none (a present [isError] is never overwritten); and the value of
    [toolResult] is handed over as it is, whichever dialect matched. *)
Theorem CallToolResult_differs_only_in_isError (v : json) (r : jsval) :
  safeParse CallToolResultSchema v = Ok r ->
  exists fs gs,
    v = JObj fs /\ r = Some (JObj gs)
    /\ (forall k, k <> "isError" -> k <> "__proto__" ->
          sans_jsval (lookup k fs) (lookup k gs))
    /\ lookup "__proto__" gs = None
    /\ (lookup "isError" gs = lookup "isError" fs
        \/ (lookup "isError" fs = None
            /\ lookup "isError" gs = Some (JBool false)))
    /\ lookup "toolResult" gs = lookup "toolResult" fs.
Proof.
  unfold safeParse, CallToolResultSchema, z_or. cbn [parse map first_ok].
  intros H.
  destruct (parse ContentDialectSchema (Some v)) as [rc|] eqn:Ec.
  - inversion H; subst rc.
    destruct v as [| | | | |fs]; try discriminate.
    destruct (parse_object_inv _ _ _ _ Ec) as [known [_ ->]].
    exists fs. eexists. split; [reflexivity|]. split; [reflexivity|].
    exact (ContentDialect_output _ _ Ec).
  - destruct (parse LegacyDialectSchema (Some v)) as [rl|] eqn:El;
      [|discriminate].
    inversion H; subst rl.
    destruct v as [| | | | |fs]; try discriminate.
    destruct (parse_object_inv _ _ _ _ El) as [known [_ ->]].
    exists fs. eexists. split; [reflexivity|]. split; [reflexivity|].
    destruct (LegacyDialect_output _ _ El) as [Hs [Hp [He Ht]]].
    split; [|split; [|split]].
    + intros k _ Hk. now apply sans_proto_lookup.
    + exact Hp.
    + left. exact He.
    + exact Ht.
Qed.

Lemma CallToolResult_differs_only_in_isError_witness :
  exists fs gs,
    JObj Samples.failed_call = JObj fs
    /\ Some (JObj Samples.failed_call_decoded) = Some (JObj gs)
    /\ (forall k, k <> "isError" -> k <> "__proto__" ->
          sans_jsval (lookup k fs) (lookup k gs))
    /\ lookup "__proto__" gs = None
    /\ (lookup "isError" gs = lookup "isError" fs
        \/ (lookup "isError" fs = None
            /\ lookup "isError" gs = Some (JBool false)))
    /\ lookup "toolResult" gs = lookup "toolResult" fs.
Proof.
  apply (CallToolResult_differs_only_in_isError (JObj Samples.failed_call)
           (Some (JObj Samples.failed_call_decoded))).
  reflexivity.
Defined.

(** ** Results *)

Lemma meta_checked_first (rest : list (string * schema)) (c : unknown_keys)
  (v : json) :
  accepts
    (ZObject (("_meta", ZOptional (ZObject [] Passthrough)) :: rest) c) v
  = true ->
  exists fs, v = JObj fs /\ meta_ok fs = true.
Proof.
  unfold accepts, safeParse. intros H.
  destruct v as [| | | | |fs]; try discriminate.
  exists fs. split; [reflexivity|].
  rewrite accepts_object in H. cbn [forallb fst snd] in H.
  rewrite accepts_meta in H. now apply andb_true_iff in H.
Qed.

(** X6.  [ResultSchema] and every schema extended from it --
    [InitializeResultSchema], [PaginatedResultSchema],
    [ListToolsResultSchema], both operands of [CallToolResultSchema] and
    the union itself -- accept nothing but an object whose [_meta] is
    absent or an object: [null], arrays, scalars and a [_meta] of any other
    type (also [null]) are rejected. *)
Theorem results_are_objects_with_object_meta (s : schema) (v : json) :
  In s (CallToolResultSchema :: result_schemas) ->
  accepts s v = true ->
  exists fs, v = JObj fs /\ meta_ok fs = true.
Proof.
  intros Hs H. destruct Hs as [<-|Hs].
  - rewrite accepts_CallToolResult in H.
    destruct v as [| | | | |fs]; try discriminate. eauto.
  - repeat (destruct Hs as [<-|Hs]; [exact (meta_checked_first _ _ v H)|]).
    destruct Hs.
Qed.

Lemma results_are_objects_with_object_meta_witness :
  exists fs, JObj Samples.initialize_fields = JObj fs /\ meta_ok fs = true.
Proof.
  apply (results_are_objects_with_object_meta InitializeResultSchema
           (JObj Samples.initialize_fields)).
  - do 2 right. left. reflexivity.
  - reflexivity.
Defined.

(** ** The schemas in plain terms *)

Lemma accepts_literal (lit : string) (x : jsval) :
  is_ok (parse (ZLiteral lit) x) = is_the_string lit x.
Proof.
  destruct x as [[| | |s| |]|]; try reflexivity.
  cbn. destruct (String.eqb s lit); reflexivity.
Qed.

Lemma accepts_optional_boolean (x : jsval) :
  is_ok (parse (ZOptional ZBoolean) x) = absent_or_bool x.
Proof. destruct x as [[]|]; reflexivity. Qed.

Lemma accepts_optional_open_object (x : jsval) :
  is_ok (parse (ZOptional (ZObject [] Passthrough)) x) = absent_or_object x.
Proof. destruct x as [[]|]; reflexivity. Qed.

Lemma accepts_optional_object (shape : list (string * schema))
  (c : unknown_keys) (x : jsval) :
  is_ok (parse (ZOptional (ZObject shape c)) x) =
  match x with
  | None => true
  | Some (JObj fs) => is_ok (parse (ZObject shape c) (Some (JObj fs)))
  | Some _ => false
  end.
Proof. destruct x as [[]|]; reflexivity. Qed.

Lemma forallb_pointwise {A : Type} (f g : A -> bool) (l : list A) :
  (forall x, f x = g x) -> forallb f l = forallb g l.
Proof.
  intros H. induction l as [|x l IH]; simpl; [reflexivity|].
  now rewrite H, IH.
Qed.

Lemma accepts_ToolSchema (v : json) : accepts ToolSchema v = tool_ok v.
Proof.
  unfold accepts, safeParse.
  destruct v as [| | | | |fs]; try reflexivity.
  change ToolSchema with
    (ZObject [("name", z_string); ("description", ZOptional z_string);
              ("inputSchema",
               ZObject [("type", ZLiteral "object");
                        ("properties", ZOptional (ZObject [] Passthrough))]
                 Passthrough)] Passthrough).
  rewrite accepts_object. cbn [forallb fst snd tool_ok].
  rewrite accepts_string, accepts_optional_string, andb_true_r, andb_assoc.
  f_equal.
  destruct (lookup "inputSchema" fs) as [[| | | | |ins]|]; try reflexivity.
  rewrite accepts_object. cbn [forallb fst snd].
  now rewrite accepts_literal, accepts_optional_open_object, andb_true_r.
Qed.

(** X7.  [ListToolsResultSchema] accepts exactly the objects with a good
    [_meta], a [nextCursor] that is absent or a string ([null] will not
    do), and an array [tools] each element of which has a string [name], a
    [description] that is absent or a string, and an [inputSchema] object
    whose [type] is the string ["object"] and whose [properties] is absent
    or an object.  A page without [tools] is rejected. *)
Theorem ListToolsResult_accepts_iff (v : json) :
  accepts ListToolsResultSchema v = list_tools_ok v.
Proof.
  destruct v as [| | | | |fs]; try reflexivity.
  unfold accepts, safeParse.
  change ListToolsResultSchema with
    (ZObject [("_meta", ZOptional (ZObject [] Passthrough));
              ("nextCursor", ZOptional z_string);
              ("tools", ZArray ToolSchema)] Passthrough).
  rewrite accepts_object. cbn [forallb fst snd list_tools_ok].
  rewrite accepts_meta, accepts_optional_string, andb_true_r, andb_assoc.
  f_equal.
  destruct (lookup "tools" fs) as [[| | | |ts|]|]; try reflexivity.
  rewrite accepts_array. apply forallb_pointwise. intros t.
  exact (accepts_ToolSchema t).
Qed.

Lemma accepts_flags_1 (n : string) (x : jsval) :
  is_ok (parse (ZOptional (ZObject [(n, ZOptional ZBoolean)] Passthrough)) x)
  = flags_ok [n] x.
Proof.
  rewrite accepts_optional_object.
  destruct x as [[| | | | |fs]|]; try reflexivity.
  rewrite accepts_object. cbn [forallb fst snd flags_ok].
  now rewrite accepts_optional_boolean.
Qed.

Lemma accepts_flags_2 (n m : string) (x : jsval) :
  is_ok (parse (ZOptional (ZObject [(n, ZOptional ZBoolean);
                                   (m, ZOptional ZBoolean)] Passthrough)) x)
  = flags_ok [n; m] x.
Proof.
  rewrite accepts_optional_object.
  destruct x as [[| | | | |fs]|]; try reflexivity.
  rewrite accepts_object. cbn [forallb fst snd flags_ok].
  now rewrite !accepts_optional_boolean.
Qed.

Lemma accepts_ServerCapabilities (x : jsval) :
  is_ok (parse ServerCapabilitiesSchema x) = capabilities_ok x.
Proof.
  destruct x as [[| | | | |cs]|]; try reflexivity.
  change ServerCapabilitiesSchema with
    (ZObject
       [("experimental", ZOptional (ZObject [] Passthrough));
        ("logging", ZOptional (ZObject [] Passthrough));
        ("prompts", ZOptional (ZObject
           [("listChanged", ZOptional ZBoolean)] Passthrough));
        ("resources", ZOptional (ZObject
           [("subscribe", ZOptional ZBoolean);
            ("listChanged", ZOptional ZBoolean)] Passthrough));
        ("tools", ZOptional (ZObject
           [("listChanged", ZOptional ZBoolean)] Passthrough))]
       Passthrough).
  rewrite accepts_object. cbn [forallb fst snd capabilities_ok].
  rewrite !accepts_optional_open_object, !accepts_flags_1, accepts_flags_2.
  now rewrite andb_true_r, !andb_assoc.
Qed.

Lemma accepts_Implementation (x : jsval) :
  is_ok (parse ClientOrServerImplementationSchema x) = implementation_ok x.
Proof.
  destruct x as [[| | | | |fs]|]; try reflexivity.
  change ClientOrServerImplementationSchema with
    (ZObject [("name", z_string); ("version", z_string)] Passthrough).
  rewrite accepts_object. cbn [forallb fst snd implementation_ok].
  now rewrite !accepts_string, andb_true_r.
Qed.

(** X8.  [InitializeResultSchema] accepts exactly the objects with a good
    [_meta], a string [protocolVersion], a [capabilities] object, a
    [serverInfo] object with string [name] and [version], and
    [instructions] absent or a string.  In [capabilities], [experimental]
    and [logging] are absent or objects, and [prompts], [resources] and
    [tools] are absent or objects whose flags ([listChanged], and
    [subscribe] for resources) are absent or booleans: an empty
    [capabilities] object is fine, a missing one is not. *)
Theorem InitializeResult_accepts_iff (v : json) :
  accepts InitializeResultSchema v = initialize_ok v.
Proof.
  destruct v as [| | | | |fs]; try reflexivity.
  unfold accepts, safeParse.
  change InitializeResultSchema with
    (ZObject [("_meta", ZOptional (ZObject [] Passthrough));
              ("protocolVersion", z_string);
              ("capabilities", ServerCapabilitiesSchema);
              ("serverInfo", ClientOrServerImplementationSchema);
              ("instructions", ZOptional z_string)] Passthrough).
  rewrite accepts_object. cbn [forallb fst snd initialize_ok].
  rewrite accepts_meta, accepts_string, accepts_ServerCapabilities,
    accepts_Implementation, accepts_optional_string.
  now rewrite andb_true_r, !andb_assoc.
Qed.

Lemma ContentPart_variants (v : json) :
  accepts ContentPartSchema v = content_part_ok v
  /\ (accepts ContentPartSchema v = true ->
      Nat.b2n (accepts TextContentSchema v)
      + Nat.b2n (accepts ImageContentSchema v)
      + Nat.b2n (accepts EmbeddedResourceSchema v) = 1).
Proof.
  assert (Hc : accepts ContentPartSchema v =
               accepts TextContentSchema v
               || accepts ImageContentSchema v
               || accepts EmbeddedResourceSchema v).
  { unfold accepts, safeParse, ContentPartSchema. rewrite accepts_union.
    cbn [existsb]. now rewrite orb_false_r, orb_assoc. }
  rewrite Hc. clear Hc. unfold accepts, safeParse.
  destruct v as [| | | | |fs]; try (split; [reflexivity | discriminate]).
  change TextContentSchema with
    (ZObject [("type", ZLiteral "text"); ("text", z_string)] Passthrough).
  change ImageContentSchema with
    (ZObject [("type", ZLiteral "image"); ("data", ZString [Base64]);
              ("mimeType", z_string)] Passthrough).
  change EmbeddedResourceSchema with
    (ZObject [("type", ZLiteral "resource");
              ("resource",
               ZUnion [TextResourceContentsSchema; BlobResourceContentsSchema])]
       Passthrough).
  rewrite !accepts_object. cbn [forallb fst snd content_part_ok].
  rewrite !accepts_literal, !accepts_string, accepts_base64, !andb_true_r.
  destruct (lookup "type" fs) as [[| | |t| |]|];
    try (split; [reflexivity | discriminate]).
  cbn [is_the_string].
  destruct (String.eqb t "text") eqn:Et.
  { apply String.eqb_eq in Et. subst t. cbn.
    rewrite !orb_false_r.
    split; [reflexivity|]. intros ->. reflexivity. }
  destruct (String.eqb t "image") eqn:Ei.
  { apply String.eqb_eq in Ei. subst t. cbn.
    rewrite !orb_false_r.
    split; [reflexivity|]. intros ->. reflexivity. }
  destruct (String.eqb t "resource") eqn:Er;
    [|split; [reflexivity | discriminate]].
  cbn [andb orb].
  destruct (lookup "resource" fs) as [[| | | | |rs]|];
    try (split; [reflexivity | discriminate]).
  rewrite accepts_resource_union.
  split; [reflexivity|]. intros ->. reflexivity.
Qed.

(** X9.  A content part is judged by its [type] alone: ["text"] asks for a
    string [text]; ["image"] for a [data] string that passes the base64
    check and a string [mimeType]; ["resource"] for a [resource] object
    that passes the resource check; any other [type], a missing [type] and
    a non-object are rejected.  The three variants exclude one another, so
    the order of the union does not matter here. *)
Theorem ContentPart_accepts_iff (v : json) :
  accepts ContentPartSchema v = content_part_ok v
  /\ (accepts ContentPartSchema v = true ->
      Nat.b2n (accepts TextContentSchema v)
      + Nat.b2n (accepts ImageContentSchema v)
      + Nat.b2n (accepts EmbeddedResourceSchema v) = 1).
Proof.
  destruct (ContentPart_variants v) as [Hiff Hone].
  split; [exact Hiff | exact Hone].
Qed.

Lemma ContentPart_accepts_iff_witness :
  Nat.b2n (accepts TextContentSchema
             (JObj [("type", JStr "text"); ("text", JStr "hi")]))
  + Nat.b2n (accepts ImageContentSchema
               (JObj [("type", JStr "text"); ("text", JStr "hi")]))
  + Nat.b2n (accepts EmbeddedResourceSchema
               (JObj [("type", JStr "text"); ("text", JStr "hi")])) = 1.
Proof.
  apply (ContentPart_accepts_iff
           (JObj [("type", JStr "text"); ("text", JStr "hi")])).
  reflexivity.
Defined.

(** X10.  [RequestSchema] accepts exactly the objects whose [method] is a
    string and whose [params] is absent or an object with a good [_meta];
    [params: null] is rejected. *)
Theorem RequestSchema_accepts_iff (v : json) :
  accepts RequestSchema v = request_ok v.
Proof.
  destruct v as [| | | | |fs]; try reflexivity.
  unfold accepts, safeParse.
  change RequestSchema with
    (ZObject [("method", z_string);
              ("params", ZOptional (ZObject
                 [("_meta", ZOptional (ZObject [] Passthrough))]
                 Passthrough))] Strip).
  rewrite accepts_object. cbn [forallb fst snd request_ok].
  rewrite accepts_string, accepts_optional_object, andb_true_r.
  f_equal.
  destruct (lookup "params" fs) as [[| | | | |ps]|]; try reflexivity.
  rewrite accepts_object. cbn [forallb fst snd].
  now rewrite accepts_meta, andb_true_r.
Qed.

(** ** Keys a schema does not name *)

Lemma lookup_other_key {A : Type} (k k' : string) (x : A)
  (fs : list (string * A)) :
  k' <> k -> lookup k' ((k, x) :: fs) = lookup k' fs.
Proof.
  intros H. simpl. apply String.eqb_neq in H. now rewrite H.
Qed.

Lemma accepts_with_unnamed_key (s : schema) (k : string) (x : json)
  (fs : list (string * json)) :
  ~ In k (top_keys s) ->
  is_ok (parse s (Some (JObj ((k, x) :: fs))))
  = is_ok (parse s (Some (JObj fs))).
Proof.
  induction s as [cs| |lit| |inner IH|inner d IH|element IH|shape c IH|options IH]
    using schema_nested_ind; intros Hk; try reflexivity.
  - cbn [top_keys] in Hk. specialize (IH Hk). cbn [parse].
    destruct (optin inner); [|exact IH].
    destruct (parse inner (Some (JObj ((k, x) :: fs)))),
      (parse inner (Some (JObj fs))); simpl in *; congruence.
  - cbn [top_keys] in Hk. specialize (IH Hk). cbn [parse].
    destruct (parse inner (Some (JObj ((k, x) :: fs)))) as [[?|]|],
      (parse inner (Some (JObj fs))) as [[?|]|]; simpl in *; congruence.
  - cbn [top_keys] in Hk. rewrite !accepts_object.
    clear IH. induction shape as [|[k' el] shape IHs]; [reflexivity|].
    cbn [forallb fst snd]. cbn [keys map fst] in Hk.
    rewrite lookup_other_key by (intros ->; apply Hk; now left).
    f_equal. apply IHs. intros Hin. apply Hk. now right.
  - cbn [top_keys] in Hk. rewrite !accepts_union.
    induction IH as [|o os Ho _ IHs]; [reflexivity|].
    cbn [existsb]. cbn [flat_map] in Hk. rewrite in_app_iff in Hk.
    f_equal; [apply Ho | apply IHs]; tauto.
Qed.

(** X11.  A key that a schema does not name never decides validation:
    setting such a key on a payload, to any value, leaves the payload
    accepted if it was and rejected if it was.  This holds for plain
    [z.object] schemas as for [.passthrough()] ones. *)
Theorem unnamed_key_never_decides (s : schema) (k : string) (x : json)
  (fs : list (string * json)) :
  ~ In k (top_keys s) ->
  accepts s (JObj ((k, x) :: fs)) = accepts s (JObj fs).
Proof.
  intros H. unfold accepts, safeParse.
  now apply accepts_with_unnamed_key.
Qed.

Lemma unnamed_key_never_decides_witness :
  accepts CallToolResultSchema
    (JObj (("traceId", JNull) :: Samples.failed_call)) = true
  /\ accepts RequestSchema
       (JObj (("traceId", JNull) :: Samples.bad_content)) = false.
Proof.
  split.
  - rewrite (unnamed_key_never_decides CallToolResultSchema "traceId" JNull
               Samples.failed_call); [reflexivity|].
    cbn. intros H. repeat (destruct H as [H|H]; [discriminate H|]).
    exact H.
  - rewrite (unnamed_key_never_decides RequestSchema "traceId" JNull
               Samples.bad_content); [reflexivity|].
    cbn. intros H. repeat (destruct H as [H|H]; [discriminate H|]).
    exact H.
Defined.

(** ** Base64 data *)

Lemma is_base64_length (s : string) :
  is_base64 s = true -> Nat.modulo (String.length s) 4 = 0.
Proof.
  destruct s as [|c s]; [reflexivity|].
  unfold is_base64. intros H. apply andb_true_iff in H.
  destruct H as [H _]. now apply Nat.eqb_eq in H.
Qed.

(** X12.  An image part is accepted only with a [data] string whose
    length is a multiple of four, and a resource part that has no string
    [text] only with a [blob] string of such a length. *)
Theorem base64_fields_come_in_quads (fs : list (string * json)) :
  (accepts ImageContentSchema (JObj fs) = true ->
   exists d, lookup "data" fs = Some (JStr d)
             /\ Nat.modulo (String.length d) 4 = 0)
  /\ (forall rs,
        lookup "type" fs = Some (JStr "resource") ->
        lookup "resource" fs = Some (JObj rs) ->
        accepts EmbeddedResourceSchema (JObj fs) = true ->
        is_string (lookup "text" rs) = false ->
        exists b, lookup "blob" rs = Some (JStr b)
                  /\ Nat.modulo (String.length b) 4 = 0).
Proof.
  split.
  - unfold accepts, safeParse.
    change ImageContentSchema with
      (ZObject [("type", ZLiteral "image"); ("data", ZString [Base64]);
                ("mimeType", z_string)] Passthrough).
    rewrite accepts_object. cbn [forallb fst snd].
    rewrite accepts_base64. intros H.
    apply andb_true_iff in H. destruct H as [_ H].
    apply andb_true_iff in H. destruct H as [H _].
    destruct (lookup "data" fs) as [[| | |d| |]|]; try discriminate.
    exists d. split; [reflexivity | now apply is_base64_length].
  - intros rs Ht Hr H Htext.
    rewrite (accepts_EmbeddedResource fs rs Ht Hr) in H.
    unfold resource_ok in H. rewrite Htext in H.
    apply andb_true_iff in H. destruct H as [_ H]. cbn [orb] in H.
    destruct (lookup "blob" rs) as [[| | |b| |]|]; try discriminate.
    exists b. split; [reflexivity | now apply is_base64_length].
Qed.

Lemma base64_fields_come_in_quads_witness :
  exists d,
    lookup "data"
      [("type", JStr "image"); ("data", JStr "aGVsbG8=");
       ("mimeType", JStr "image/png")] = Some (JStr d)
    /\ Nat.modulo (String.length d) 4 = 0.
Proof.
  apply (base64_fields_come_in_quads
           [("type", JStr "image"); ("data", JStr "aGVsbG8=");
            ("mimeType", JStr "image/png")]).
  reflexivity.
Defined.

(** X13.  An [isError] that is not a boolean does not get a result
    rejected: the content dialect turns the payload down, the legacy
    dialect takes it, and the value is handed over as it is.  So the
    [isError] of a validated tool result need not be a boolean. *)
Theorem CallToolResult_passes_odd_isError (fs : list (string * json))
  (x : json) :
  meta_ok fs = true ->
  lookup "isError" fs = Some x ->
  (forall b, x <> JBool b) ->
  accepts ContentDialectSchema (JObj fs) = false
  /\ exists gs,
      safeParse CallToolResultSchema (JObj fs) = Ok (Some (JObj gs))
      /\ lookup "isError" gs = Some x.
Proof.
  intros Hm Hx Hb.
  assert (Hc : accepts ContentDialectSchema (JObj fs) = false).
  { rewrite accepts_ContentDialect, Hx.
    destruct x; try apply andb_false_r. now destruct (Hb b). }
  split; [exact Hc|].
  assert (Hl : accepts LegacyDialectSchema (JObj fs) = true)
    by now rewrite accepts_LegacyDialect.
  unfold accepts, safeParse in *.
  unfold CallToolResultSchema, z_or. cbn [parse map first_ok].
  destruct (parse ContentDialectSchema (Some (JObj fs))); [discriminate|].
  destruct (parse LegacyDialectSchema (Some (JObj fs))) as [r|] eqn:El;
    [|discriminate].
  destruct (parse_object_inv _ _ _ _ El) as [known [_ ->]].
  eexists. split; [reflexivity|].
  destruct (LegacyDialect_output _ _ El) as [_ [_ [He _]]].
  now rewrite He.
Qed.

Lemma CallToolResult_passes_odd_isError_witness :
  accepts ContentDialectSchema
    (JObj [("content", JArr []); ("isError", JStr "yes")]) = false
  /\ exists gs,
      safeParse CallToolResultSchema
        (JObj [("content", JArr []); ("isError", JStr "yes")])
      = Ok (Some (JObj gs))
      /\ lookup "isError" gs = Some (JStr "yes").
Proof.
  apply (CallToolResult_passes_odd_isError
           [("content", JArr []); ("isError", JStr "yes")] (JStr "yes")).
  - reflexivity.
  - reflexivity.
  - intros b H. discriminate H.
Defined.

(** ** Reordered payloads *)

Lemma same_content_by_lookup (fs gs : list (string * json)) :
  (forall k, same_jsval (lookup k fs) (lookup k gs)) ->
  same_content (JObj fs) (JObj gs).
Proof.
  intros H. constructor.
  - intros k x Hk. specialize (H k). rewrite Hk in H.
    destruct (lookup k gs) as [y|]; [|contradiction]. eauto.
  - intros k Hk. specialize (H k). rewrite Hk in H.
    now destruct (lookup k gs).
Qed.

Lemma is_leaf_reparse_safe (s : schema) :
  is_leaf s = true -> reparse_safe s = true.
Proof. destruct s; try discriminate; reflexivity. Qed.

Lemma collect_items_same (f : json -> result jsval) (xs ys : list json) :
  Forall2 (fun x y => forall r, f x = Ok r ->
             exists r', f y = Ok r' /\ same_jsval r r') xs ys ->
  forall i vs, collect_items i (map f xs) = Ok vs ->
    exists ws, collect_items i (map f ys) = Ok ws
               /\ Forall2 same_content vs ws.
Proof.
  induction 1 as [|x y xs ys Hxy _ IH]; intros i vs C.
  - inversion C; subst. exists []. split; [reflexivity | constructor].
  - cbn [map collect_items] in *.
    destruct (f x) as [rx|] eqn:Ex;
      destruct (collect_items (S i) (map f xs)) as [vs'|] eqn:Cx;
      try (destruct rx; discriminate); try discriminate.
    destruct (Hxy _ eq_refl) as [ry [Ey Hs]].
    destruct (IH _ _ Cx) as [ws' [Cy Hws]].
    rewrite Ey, Cy.
    destruct rx as [vx|], ry as [vy|]; try contradiction;
      inversion C; subst; eexists; (split; [reflexivity|]);
      constructor; auto. constructor.
Qed.

Lemma parse_same_jsval (s : schema) :
  reparse_safe s = true ->
  forall x y r,
    same_jsval x y -> parse s x = Ok r ->
    exists r', parse s y = Ok r' /\ same_jsval r r'.
Proof.
  induction s as [cs| |lit| |inner IH|inner d IH|element IH|shape c IH|options IH]
    using schema_nested_ind; intros Hs x y r Hxy H.
  - destruct x as [v|], y as [w|]; try contradiction; try discriminate.
    simpl in Hxy. inversion Hxy; subst; try discriminate.
    exists r. split; [exact H|]. apply same_jsval_refl.
  - destruct x as [v|], y as [w|]; try contradiction; try discriminate.
    simpl in Hxy. inversion Hxy; subst; try discriminate.
    exists r. split; [exact H|]. apply same_jsval_refl.
  - destruct x as [v|], y as [w|]; try contradiction; try discriminate.
    simpl in Hxy. inversion Hxy; subst; try discriminate.
    exists r. split; [exact H|]. apply same_jsval_refl.
  - inversion H; subst. exists y. split; [reflexivity | exact Hxy].
  - cbn [reparse_safe] in Hs. cbn [parse] in *.
    destruct x as [v|], y as [w|]; try contradiction.
    + assert (Hin : parse inner (Some v) = Ok r).
      { destruct (optin inner); [|exact H].
        destruct (parse inner (Some v)); [exact H | discriminate]. }
      destruct (IH Hs _ _ _ Hxy Hin) as [r' [E' Hr]].
      exists r'. split; [|exact Hr].
      destruct (optin inner); [now rewrite E' | exact E'].
    + exists r. split; [exact H | apply same_jsval_refl].
  - cbn [reparse_safe] in Hs. apply andb_true_iff in Hs.
    destruct Hs as [Hleaf _]. cbn [parse] in *.
    destruct x as [v|], y as [w|]; try contradiction.
    + destruct (parse inner (Some v)) as [ri|] eqn:E; [|discriminate].
      destruct (parse_defined _ _ _ E) as [vi ->].
      inversion H; subst r.
      destruct (IH (is_leaf_reparse_safe _ Hleaf) _ _ _ Hxy E)
        as [r' [E' Hr]].
      rewrite E'. destruct r' as [wi|]; [|contradiction].
      exists (Some wi). split; [reflexivity | exact Hr].
    + exists r. split; [exact H | apply same_jsval_refl].
  - cbn [reparse_safe] in Hs. cbn [parse] in *.
    destruct x as [v|], y as [w|]; try contradiction; try discriminate.
    simpl in Hxy. inversion Hxy as [| | | |xs ys HF|]; subst;
      try discriminate.
    destruct (collect_items 0 _) as [vs|] eqn:C; inversion H; subst.
    destruct (collect_items_same (fun v => parse element (Some v)) xs ys)
      with (i := 0) (vs := vs) as [ws [Cw Hws]]; [|exact C|].
    + clear - IH Hs HF. induction HF as [|a b xs ys Hab _ IHF];
        constructor; [|exact IHF].
      intros r E. exact (IH Hs (Some a) (Some b) r Hab E).
    + rewrite Cw. exists (Some (JArr ws)). split; [reflexivity|].
      simpl. now constructor.
  - cbn [reparse_safe] in Hs. apply andb_true_iff in Hs.
    destruct Hs as [Hu Hs]. apply andb_true_iff in Hu.
    destruct Hu as [Hu _]. rewrite forallb_forall in Hs.
    rewrite Forall_forall in IH.
    destruct x as [v|], y as [w|]; try contradiction; try discriminate.
    simpl in Hxy.
    inversion Hxy as [| | | | |fs fs' Hsome Hnone]; subst; try discriminate.
    destruct (parse_object_inv _ _ _ _ H) as [known [_ ->]].
    pose proof (accepts_same_jsval (ZObject shape c) (Some (JObj fs))
                  (Some (JObj fs')) Hxy) as Hacc.
    rewrite H in Hacc.
    destruct (parse (ZObject shape c) (Some (JObj fs'))) as [r'|] eqn:H';
      [|discriminate].
    destruct (parse_object_inv _ _ _ _ H') as [known' [_ ->]].
    eexists. split; [reflexivity|].
    cbn [same_jsval]. apply same_content_by_lookup. intros k.
    pose proof (same_content_lookup _ _ k Hxy) as Hk.
    destruct (lookup k shape) as [el|] eqn:Es.
    + pose proof (lookup_In _ _ _ Es) as Hin.
      pose proof (parse_object_bound _ _ _ _ k el Hu H Hin) as E.
      pose proof (parse_object_bound _ _ _ _ k el Hu H' Hin) as E'.
      destruct (IH _ Hin (Hs _ Hin) _ _ _ Hk E) as [q [Eq Hq]].
      cbn [snd] in Eq. rewrite E' in Eq. inversion Eq; subst q. exact Hq.
    + rewrite (parse_object_unknown_key _ _ _ _ k H Es).
      rewrite (parse_object_unknown_key _ _ _ _ k H' Es).
      destruct c; [exact I|].
      destruct (String.eqb k "__proto__"); [exact I | exact Hk].
  - cbn [reparse_safe] in Hs. apply andb_true_iff in Hs.
    destruct Hs as [Hs _]. rewrite forallb_forall in Hs.
    cbn [parse] in *.
    induction IH as [|o os Ho _ IHs]; [discriminate|].
    cbn [map first_ok] in *.
    destruct (parse o x) as [ro|] eqn:E.
    + inversion H; subst ro.
      destruct (Ho (Hs _ (or_introl eq_refl)) _ _ _ Hxy E) as [r' [E' Hr]].
      rewrite E'. eauto.
    + pose proof (accepts_same_jsval o _ _ Hxy) as Hacc.
      rewrite E in Hacc. destruct (parse o y); [discriminate|].
      apply IHs; [|exact H]. intros o' Hin. apply Hs. now right.
Qed.

(** X14.  Reordering the keys of a payload only reorders the result: if a
    schema of the module returns a value for a payload, it returns a value
    with the same content for every payload with the same content. *)
Theorem reordered_payload_same_result (s : schema) (v w : json) (r : jsval) :
  In s module_schemas ->
  same_content v w ->
  safeParse s v = Ok r ->
  exists r', safeParse s w = Ok r' /\ same_jsval r r'.
Proof.
  intros Hs Hvw H.
  exact (parse_same_jsval s (module_schemas_reparse_safe s Hs)
           (Some v) (Some w) r Hvw H).
Qed.

Lemma reordered_payload_same_result_witness :
  exists r',
    safeParse CallToolResultSchema (JObj Samples.annotated_reordered) = Ok r'
    /\ same_jsval (Some (JObj Samples.annotated_decoded)) r'.
Proof.
  apply (reordered_payload_same_result CallToolResultSchema
           (JObj Samples.annotated_fields)).
  - do 17 right. left. reflexivity.
  - apply (same_contentb_sound 6). reflexivity.
  - reflexivity.
Defined.

(** ** The base64 check and the catch-all, on examples *)

(** Whitespace is tolerated, the length counts it; padding is at the end
    only. *)
Lemma base64_check_examples :
  is_base64 "" = true
  /\ is_base64 "aGVsbG8=" = true
  /\ is_base64 "ab c" = true
  /\ is_base64 "    " = true
  /\ is_base64 "abc" = false
  /\ is_base64 "a===" = false
  /\ is_base64 "ab=c" = false
  /\ is_base64 "ab!c" = false.
Proof. repeat split; reflexivity. Qed.

(** An own key [__proto__] is not in what a passthrough object returns. *)
Lemma BaseParamsSchema_drops_proto :
  safeParse BaseParamsSchema (JObj Samples.params_with_proto)
  = Ok (Some (JObj [("a", JNum 1)])).
Proof. reflexivity. Qed.

(** ** The dialects, in the words of the specification *)

(** C1 (as stated, refuted).  An object whose [content] is a number
    matches neither dialect as the specification describes them, and is
    accepted; an object with a well-formed [content] array matches the
    content dialect, and is rejected for its [_meta]. *)
Lemma CallToolResult_dialects_do_not_decide :
  (content_dialect (JObj Samples.bad_content) = false
   /\ legacy_dialect (JObj Samples.bad_content) = false
   /\ accepts CallToolResultSchema (JObj Samples.bad_content) = true)
  /\ (content_dialect (JObj Samples.good_content_bad_meta) = true
      /\ accepts CallToolResultSchema (JObj Samples.good_content_bad_meta)
         = false).
Proof. repeat split; reflexivity. Qed.

(** C1 (as amended).  The content operand of [CallToolResultSchema]
    accepts exactly the objects with a good [_meta] that are in the content
    dialect (a [content] array of valid parts, [isError] absent or a
    boolean); the legacy operand accepts every object with a good [_meta],
    with or without a [toolResult]; the union accepts a payload when one
    operand does, that is, exactly when the payload is an object whose
    [_meta] is absent or an object.  Validation fails for every other
    payload, and only for those. *)
Theorem CallToolResult_accepts_by_dialect (v : json) :
  accepts ContentDialectSchema v = object_with_good_meta v && content_dialect v
  /\ accepts LegacyDialectSchema v = object_with_good_meta v
  /\ accepts CallToolResultSchema v
     = accepts ContentDialectSchema v || accepts LegacyDialectSchema v
  /\ accepts CallToolResultSchema v = object_with_good_meta v.
Proof.
  split; [|split; [|split]].
  - rewrite accepts_ContentDialect.
    destruct v as [| | | | |fs]; try reflexivity.
    cbn [object_with_good_meta content_dialect].
    rewrite <- andb_assoc. f_equal.
    unfold absent_or_bool. f_equal.
    destruct (lookup "content" fs) as [[| | | |parts|]|]; try reflexivity.
    apply forallb_pointwise. intros part.
    exact (proj1 (ContentPart_variants part)).
  - apply accepts_LegacyDialect.
  - unfold CallToolResultSchema. apply accepts_z_or.
  - apply accepts_CallToolResult.
Qed.
